(** * The calculator web service of app.py

    A shallow embedding of [Calculator], [api_calculate] and [health_check],
    together with the part of the Python runtime they call ([float], [int],
    [round], [str], [in], indexing, exceptions), and the properties of the
    specification stated over it.

    Python's [float] is an IEEE 754 binary64 number: it is modelled by the
    Standard Library's [spec_float] at precision 53 and maximal exponent 1024,
    whose operations round to nearest, ties to even, as the hardware does. *)

From Stdlib Require Import ZArith String Ascii List Bool Lia QArith.
From Stdlib Require Import DecimalString SpecFloat.
From Stdlib Require Decimal DecimalFacts DecimalPos.
Import ListNotations.
Local Open Scope string_scope.
Local Open Scope Z_scope.

(** ** The Python runtime *)

Module Py.

(** *** Exceptions

    [ValueError] carries the text that [str(e)] returns, which the handler
    sends back.  The messages of the other exceptions are only logged, so they
    are not modelled.  [HTTPException] stands for what [request.get_json()]
    raises on a body it cannot read (werkzeug's BadRequest and
    UnsupportedMediaType): it is not a [ValueError]. *)
Inductive exn : Type :=
| ValueError (msg : string)
| TypeError
| OverflowError
| KeyError
| HTTPException (code : Z).

Inductive result (A : Type) : Type :=
| Ok (a : A)
| Raise (e : exn).

Arguments Ok {A} a.
Arguments Raise {A} e.

Definition bind {A B : Type} (r : result A) (k : A -> result B) : result B :=
  match r with
  | Ok a => k a
  | Raise e => Raise e
  end.

Notation "x <- r ;; k" := (bind r (fun x => k))
  (at level 61, r at next level, right associativity).

(** *** Floating-point numbers *)

Definition prec : Z := 53.
Definition emax : Z := 1024.

Definition float : Type := spec_float.

Definition nan : float := S754_nan.
Definition zero : float := S754_zero false.

Definition fadd : float -> float -> float := SFadd prec emax.
Definition fsub : float -> float -> float := SFsub prec emax.
Definition fmul : float -> float -> float := SFmul prec emax.
Definition fdiv : float -> float -> float := SFdiv prec emax.

(** The same float, bit for bit (all NaNs being one). *)
Definition float_same (x y : float) : bool :=
  match x, y with
  | S754_zero s, S754_zero t => Bool.eqb s t
  | S754_infinity s, S754_infinity t => Bool.eqb s t
  | S754_nan, S754_nan => true
  | S754_finite s m e, S754_finite t n f =>
      Bool.eqb s t && Pos.eqb m n && Z.eqb e f
  | _, _ => false
  end.

(** The float nearest to [n / d], for [0 <= n] and [0 < d]: the quotient is
    computed with enough bits and a location, then rounded once.  Beyond the
    largest float the result is an infinity. *)
Definition float_of_ratio (neg : bool) (n d : Z) : float :=
  match n with
  | Z0 => S754_zero neg
  | _ =>
      let '(q, e, l) := SFdiv_core_binary prec emax n 0 d 0 in
      binary_round_aux prec emax neg q e l
  end.

(** The float nearest to [m * 10 ^ e10], for [0 <= m]: what [strtod] returns
    for the digits [m] and the decimal exponent [e10]. *)
Definition float_of_decimal (neg : bool) (m e10 : Z) : float :=
  if 0 <=? e10 then float_of_ratio neg (m * 10 ^ e10) 1
  else float_of_ratio neg m (10 ^ (- e10)).

(** [float(z)] for an [int]: the nearest float, or [OverflowError] when [z]
    rounds beyond the largest one. *)
Definition float_of_int (z : Z) : result float :=
  match binary_normalize prec emax z 0 false with
  | S754_infinity _ => Raise OverflowError
  | f => Ok f
  end.

(** The exact value of a float as a rational; infinities and NaN have none. *)
Definition Q_of_float (x : float) : option Q :=
  match x with
  | S754_zero _ => Some 0%Q
  | S754_finite s m e =>
      Some (if 0 <=? e then inject_Z (cond_Zopp s (Zpos m) * 2 ^ e)
            else Qmake (cond_Zopp s (Zpos m)) (Z.to_pos (2 ^ (- e))))
  | _ => None
  end.

(** [int(x)]: truncation towards zero. *)
Definition int_of_float (x : float) : result Z :=
  match x with
  | S754_nan => Raise (ValueError "cannot convert float NaN to integer")
  | S754_infinity _ => Raise OverflowError
  | S754_zero _ => Ok 0
  | S754_finite s m e => Ok (cond_Zopp s (Z.shiftl (Zpos m) e))
  end.

(** [x == z] for a float [x] and an int [z]: Python compares the exact
    values, without converting [z] to a float. *)
Definition float_eq_int (x : float) (z : Z) : bool :=
  match x with
  | S754_zero _ => z =? 0
  | S754_finite s m e =>
      if 0 <=? e then cond_Zopp s (Zpos m) * 2 ^ e =? z
      else cond_Zopp s (Zpos m) =? z * 2 ^ (- e)
  | _ => false
  end.

(** The integer nearest to [n / d] ([0 <= n], [0 < d]), ties to even. *)
Definition round_half_even (n d : Z) : Z :=
  let q := n / d in
  match 2 * (n mod d) ?= d with
  | Lt => q
  | Gt => q + 1
  | Eq => if Z.even q then q else q + 1
  end.

(** [round(x, ndigits)] for [0 <= ndigits]: CPython prints [x] correctly
    rounded to [ndigits] decimals and reads the digits back. *)
Definition round (x : float) (ndigits : Z) : float :=
  match x with
  | S754_finite s m e =>
      let n := Zpos m * 2 ^ Z.max e 0 * 10 ^ ndigits in
      let d := 2 ^ Z.max (- e) 0 in
      float_of_decimal s (round_half_even n d) (- ndigits)
  | _ => x
  end.

(** *** Text

    A [str] is the string of its UTF-8 bytes: two are equal when their code
    points are, and one occurs in another when its code points do. *)

Definition chars (s : string) : list ascii := list_ascii_of_string s.

Definition code (c : ascii) : N := N_of_ascii c.

Definition is_char (c d : ascii) : bool := Ascii.eqb c d.

(** [Py_ISSPACE]: tab, line feed, vertical tab, form feed, carriage return
    and space. *)
Definition is_space (c : ascii) : bool :=
  ((9 <=? code c) && (code c <=? 13) || (code c =? 32))%N.

Definition is_digit (c : ascii) : bool :=
  ((48 <=? code c) && (code c <=? 57))%N.

Definition digit_value (c : ascii) : Z := Z.of_N (code c) - 48.

(** [Py_TOLOWER] *)
Definition to_lower (c : ascii) : ascii :=
  if ((65 <=? code c) && (code c <=? 90))%N
  then ascii_of_N (code c + 32) else c.

Definition is_ascii (s : string) : bool :=
  forallb (fun c => (code c <? 128)%N) (chars s).

Fixpoint lstrip (l : list ascii) : list ascii :=
  match l with
  | c :: r => if is_space c then lstrip r else l
  | [] => []
  end.

Definition strip (l : list ascii) : list ascii :=
  rev (lstrip (rev (lstrip l))).

(** [_Py_string_to_number_with_underscores]: an underscore is removed when it
    stands between two digits, and refused anywhere else.  [prev] is the
    character before [l]. *)
Fixpoint drop_underscores (prev : ascii) (l : list ascii)
  : option (list ascii) :=
  match l with
  | [] => if is_char prev "_" then None else Some []
  | c :: r =>
      if is_char c "_" then
        if is_digit prev then drop_underscores c r else None
      else if is_char prev "_" && negb (is_digit c) then None
      else option_map (cons c) (drop_underscores c r)
  end.

(** The leading digits of [l]: their value appended to [acc], their number
    added to [n], and what follows them. *)
Fixpoint digits (l : list ascii) (acc n : Z) : Z * Z * list ascii :=
  match l with
  | c :: r =>
      if is_digit c then digits r (10 * acc + digit_value c) (n + 1)
      else (acc, n, l)
  | [] => (acc, n, [])
  end.

Definition sign (l : list ascii) : bool * list ascii :=
  match l with
  | c :: r =>
      if is_char c "-" then (true, r)
      else if is_char c "+" then (false, r)
      else (false, l)
  | [] => (false, [])
  end.

(** An unsigned decimal numeral, read to its end: digits with an optional
    point (at least one digit in all) and an optional exponent.  The result
    [(m, e10)] stands for [m * 10 ^ e10]. *)
Definition parse_decimal (l : list ascii) : option (Z * Z) :=
  let '(ip, ni, l1) := digits l 0 0 in
  let '(m, nf, l2) :=
    match l1 with
    | c :: r => if is_char c "." then digits r ip 0 else (ip, 0, l1)
    | [] => (ip, 0, l1)
    end in
  if ni + nf =? 0 then None
  else
    match l2 with
    | [] => Some (m, - nf)
    | c :: r =>
        if is_char (to_lower c) "e" then
          let '(eneg, r1) := sign r in
          let '(ex, ne, r2) := digits r1 0 0 in
          match r2 with
          | [] => if ne =? 0 then None else Some (m, cond_Zopp eneg ex - nf)
          | _ :: _ => None
          end
        else None
    end.

(** [_PyOS_ascii_strtod] on the whole text: a signed decimal numeral, or
    else, in any case of letters, a signed [inf], [infinity] or [nan]. *)
Definition parse_float (l : list ascii) : option float :=
  let '(neg, r) := sign l in
  match parse_decimal r with
  | Some (m, e10) => Some (float_of_decimal neg m e10)
  | None =>
      let w := string_of_list_ascii (map to_lower r) in
      if String.eqb w "inf" || String.eqb w "infinity"
      then Some (S754_infinity neg)
      else if String.eqb w "nan" then Some nan
      else None
  end.

(** The text of the [ValueError] of [float(s)].  Python quotes [s] as
    [repr(s)] does; the quoting of quotes, backslashes and unprintable
    characters inside [s] is left out.  No response carries this text. *)
Definition could_not_convert (s : string) : string :=
  ("could not convert string to float: '" ++ s ++ "'")%string.

Section Text.

(** [_PyUnicode_TransformDecimalAndSpaceToASCII], which [float] applies to
    a [str] first: it replaces the white space and the decimal digits of
    other scripts by their ASCII counterparts, following the Unicode character
    database of the interpreter.  A text that is ASCII already is returned as
    it is (see [ascii_text]). *)
Variable ascii_of_unicode : string -> string.

(** [float(s)] for a [str]. *)
Definition float_of_str (s : string) : result float :=
  match drop_underscores Ascii.zero (strip (chars (ascii_of_unicode s))) with
  | Some l =>
      match parse_float l with
      | Some x => Ok x
      | None => Raise (ValueError (could_not_convert s))
      end
  | None => Raise (ValueError (could_not_convert s))
  end.

End Text.

(** The transformation on ASCII text. *)
Definition ascii_text (s : string) : string := s.

(** The interpreters the properties hold for: those that leave ASCII text
    as it is. *)
Definition keeps_ascii (ascii_of_unicode : string -> string) : Prop :=
  forall s, is_ascii s = true -> ascii_of_unicode s = s.

(** *** [repr] of a float and [str] of an int *)

(** The decimal numeral of [z]: the text [str(z)] returns when it returns
    (see [long_to_decimal_string] for when it does). *)
Definition str_of_int (z : Z) : string := NilZero.string_of_int (Z.to_int z).

(** The text of the [ValueError] of [str(z)] for an int that is too long. *)
Definition exceeds_limit_to_str (limit : Z) : string :=
  ("Exceeds the limit (" ++ str_of_int limit
   ++ " digits) for integer string conversion; "
   ++ "use sys.set_int_max_str_digits() to increase the limit")%string.

(** [str(z)] for an int, as [long_to_decimal_string] computes it.  Once the
    numeral has more than 640 characters, the number of its digits is
    compared with [max_str_digits], which is
    [sys.get_int_max_str_digits()]: 4300 unless the interpreter is configured
    otherwise, 0 when there is no limit.  (The estimate that the function makes
    beforehand on the machine words of [z] only anticipates this test: it
    refuses no int that the test accepts.) *)
Definition long_to_decimal_string (max_str_digits z : Z) : result string :=
  let s := str_of_int z in
  let strlen := Z.of_nat (String.length s) in
  let strlen_nosign := if z <? 0 then strlen - 1 else strlen in
  if (640 <? strlen) && (0 <? max_str_digits) && (max_str_digits <? strlen_nosign)
  then Raise (ValueError (exceeds_limit_to_str max_str_digits))
  else Ok s.

(** The number of decimal digits of [z], for [0 < z]. *)
Definition ndigits10 (z : Z) : Z := Z.of_nat (String.length (str_of_int z)).

(** The largest [k] with [10 ^ k <= n / d], for [0 < n] and [0 < d]. *)
Definition ilog10 (n d : Z) : Z :=
  if d <=? n then ndigits10 (n / d) - 1
  else - ndigits10 ((d - 1) / n).

(** The shortest decimal that reads back as the positive float [x], whose
    exact value is [n / d] and whose decimal logarithm has floor [lg]: with
    [nd] digits the two decimals around [x] are tried, the nearer first;
    17 digits always suffice.  The result [(c, k)] stands for [c * 10 ^ k]. *)
Fixpoint shortest (fuel : nat) (x : float) (n d lg nd : Z) : Z * Z :=
  let k := lg - nd + 1 in
  let sn := n * 10 ^ Z.max (- k) 0 in
  let sd := d * 10 ^ Z.max k 0 in
  let lo := sn / sd in
  let hi := lo + 1 in
  let ok_lo := float_same (float_of_decimal false lo k) x in
  let ok_hi := float_same (float_of_decimal false hi k) x in
  let nearest := round_half_even sn sd in
  match fuel with
  | O => (nearest, k)
  | S fuel' =>
      if ok_lo && ok_hi then (nearest, k)
      else if ok_lo then (lo, k)
      else if ok_hi then (hi, k)
      else shortest fuel' x n d lg (nd + 1)
  end.

Fixpoint drop_zeros (l : list ascii) : list ascii :=
  match l with
  | c :: r => if is_char c "0" then drop_zeros r else l
  | [] => []
  end.

Definition zeros (n : Z) : string :=
  string_of_list_ascii (repeat "0"%char (Z.to_nat n)).

(** [float_repr_style] short, format code [r]: the shortest digits, in
    positional notation when the decimal point falls within them or at most 3
    zeros before or 16 digits after their start, with an exponent otherwise. *)
Definition repr_digits (ds : string) (decpt : Z) : string :=
  let n := Z.of_nat (String.length ds) in
  if (-4 <? decpt) && (decpt <=? 16) then
    if decpt <=? 0 then "0." ++ zeros (- decpt) ++ ds
    else if n <=? decpt then ds ++ zeros (decpt - n) ++ ".0"
    else substring 0 (Z.to_nat decpt) ds ++ "."
         ++ substring (Z.to_nat decpt) (Z.to_nat (n - decpt)) ds
  else
    let ex := decpt - 1 in
    let mant :=
      if n <=? 1 then ds
      else substring 0 1 ds ++ "." ++ substring 1 (Z.to_nat (n - 1)) ds in
    let exs := str_of_int (Z.abs ex) in
    mant ++ "e" ++ (if ex <? 0 then "-" else "+")
         ++ (if Z.abs ex <? 10 then "0" else EmptyString) ++ exs.

Definition float_repr (x : float) : string :=
  match x with
  | S754_nan => "nan"
  | S754_infinity s => if s then "-inf" else "inf"
  | S754_zero s => if s then "-0.0" else "0.0"
  | S754_finite s m e =>
      let n := Zpos m * 2 ^ Z.max e 0 in
      let d := 2 ^ Z.max (- e) 0 in
      let '(c, k) := shortest 17 (S754_finite false m e) n d (ilog10 n d) 1 in
      let all := str_of_int c in
      let ds := string_of_list_ascii (rev (drop_zeros (rev (chars all)))) in
      (if s then "-" else EmptyString)
        ++ repr_digits ds (k + Z.of_nat (String.length all))
  end.

(** *** Values

    What [json.loads] produces: the hashable objects [None], [bool], [int],
    [float] and [str], and the containers [list] and [dict] (whose keys are
    [str]; a [dict] is the list of its items, looked up from the front). *)

Inductive atom : Type :=
| ANone
| ABool (b : bool)
| AInt (z : Z)
| AFloat (x : float)
| AStr (s : string).

#[warnings="-register-all"]
Inductive value : Type :=
| Atom (a : atom)
| VList (l : list value)
| VDict (d : list (string * value)).

Coercion Atom : atom >-> value.

Fixpoint lookup {A : Type} (key : string) (d : list (string * A)) : option A :=
  match d with
  | [] => None
  | (k, v) :: r => if String.eqb k key then Some v else lookup key r
  end.

(** [str(a)], as an f-string formats [a]; [max_str_digits] is the limit of
    the interpreter on the digits of an int. *)
Definition str (max_str_digits : Z) (a : atom) : result string :=
  match a with
  | ANone => Ok "None"
  | ABool b => Ok (if b then "True" else "False")
  | AInt z => long_to_decimal_string max_str_digits z
  | AFloat x => Ok (float_repr x)
  | AStr s => Ok s
  end.

(** [bool(v)], as [not v] tests it. *)
Definition truthy (v : value) : bool :=
  match v with
  | Atom ANone => false
  | Atom (ABool b) => b
  | Atom (AInt z) => negb (z =? 0)
  | Atom (AFloat x) => negb (float_eq_int x 0)
  | Atom (AStr s) => negb (String.eqb s EmptyString)
  | VList l => match l with [] => false | _ :: _ => true end
  | VDict d => match d with [] => false | _ :: _ => true end
  end.

(** [hash(v)] raises [TypeError] for a [list] and a [dict]; a hashable
    object can be a key. *)
Definition hashable (v : value) : result atom :=
  match v with
  | Atom a => Ok a
  | VList _ | VDict _ => Raise TypeError
  end.

(** [v == s] for a [str] [s]. *)
Definition eq_str (v : value) (s : string) : bool :=
  match v with
  | Atom (AStr t) => String.eqb t s
  | _ => false
  end.

Definition is_substring (s t : string) : bool :=
  match String.index 0 s t with
  | Some _ => true
  | None => String.eqb s EmptyString
  end.

(** [s in container] for a [str] [s]: a key of a [dict], an element of a
    [list], a substring of a [str]; the other objects are not iterable. *)
Definition contains (container : value) (s : string) : result bool :=
  match container with
  | VDict d => Ok (match lookup s d with Some _ => true | None => false end)
  | VList l => Ok (existsb (fun v => eq_str v s) l)
  | Atom (AStr t) => Ok (is_substring s t)
  | Atom _ => Raise TypeError
  end.

(** [container[s]] for a [str] [s]: only a [dict] is indexed by a [str]. *)
Definition getitem (container : value) (s : string) : result value :=
  match container with
  | VDict d =>
      match lookup s d with
      | Some v => Ok v
      | None => Raise KeyError
      end
  | _ => Raise TypeError
  end.

(** [key in d] and [d[key]] for a [dict] [d] with [str] keys and any
    hashable [key]: only a [str] equals a [str]. *)
Definition has_key {A : Type} (d : list (string * A)) (key : atom) : bool :=
  match key with
  | AStr s => match lookup s d with Some _ => true | None => false end
  | _ => false
  end.

Definition item {A : Type} (d : list (string * A)) (key : atom) : result A :=
  match key with
  | AStr s =>
      match lookup s d with
      | Some v => Ok v
      | None => Raise KeyError
      end
  | _ => Raise KeyError
  end.

Section Builtins.

Variable ascii_of_unicode : string -> string.

(** [float(v)] *)
Definition float_of (v : value) : result float :=
  match v with
  | Atom (AFloat x) => Ok x
  | Atom (AInt z) => float_of_int z
  | Atom (ABool b) => float_of_int (if b then 1 else 0)
  | Atom (AStr s) => float_of_str ascii_of_unicode s
  | Atom ANone | VList _ | VDict _ => Raise TypeError
  end.

End Builtins.

End Py.

Import Py.

(** ** class Calculator *)

Module Calculator.

(** The keys of [operations] that are not ASCII, as the source file has them:
    the code points U+0E23 U+0097 (bytes e0 b8 a3 c2 97) and U+0E23 U+0E17
    (bytes e0 b8 a3 e0 b8 97). *)
Definition alt_multiply_key : string :=
  string_of_list_byte [Byte.xe0; Byte.xb8; Byte.xa3; Byte.xc2; Byte.x97].

Definition alt_divide_key : string :=
  string_of_list_byte
    [Byte.xe0; Byte.xb8; Byte.xa3; Byte.xe0; Byte.xb8; Byte.x97].

Section Calculator.

Variable ascii_of_unicode : string -> string.

(** [sys.get_int_max_str_digits()], which the f-string of [calculate]
    consults when the operator is an int. *)
Variable max_str_digits : Z.

Abbreviation float_of := (Py.float_of ascii_of_unicode).

Definition add (a b : value) : result float :=
  x <- float_of a ;; y <- float_of b ;; Ok (fadd x y).

Definition subtract (a b : value) : result float :=
  x <- float_of a ;; y <- float_of b ;; Ok (fsub x y).

Definition multiply (a b : value) : result float :=
  x <- float_of a ;; y <- float_of b ;; Ok (fmul x y).

Definition divide (a b : value) : result float :=
  d <- float_of b ;;
  if float_eq_int d 0
  then Raise (ValueError "Division by zero is not allowed")
  else x <- float_of a ;; y <- float_of b ;; Ok (fdiv x y).

Definition operations : list (string * (value -> value -> result float)) :=
  [ ("+", add);
    ("-", subtract);
    ("*", multiply);
    (alt_multiply_key, multiply);
    ("/", divide);
    (alt_divide_key, divide) ].

Definition calculate (num1 operator num2 : value) : result float :=
  key <- hashable operator ;;
  if negb (has_key operations key)
  then text <- str max_str_digits key ;;
       Raise (ValueError ("Invalid operator: " ++ text))
  else op <- item operations key ;; op num1 num2.

End Calculator.

End Calculator.

(** ** The routes *)

Record response : Type := { body : value; status : Z }.

Definition jsonify (d : list (string * value)) : value := VDict d.

Definition required_fields : list string := ["num1"; "operator"; "num2"].

Section Routes.

Variable ascii_of_unicode : string -> string.
Variable max_str_digits : Z.

Abbreviation float_of := (Py.float_of ascii_of_unicode).
Abbreviation calculate := (Calculator.calculate ascii_of_unicode max_str_digits).

(** The loop over [required_fields]: the first field that is not in [data],
    if there is one. *)
Fixpoint first_missing (data : value) (fields : list string)
  : result (option string) :=
  match fields with
  | [] => Ok None
  | field :: rest =>
      present <- contains data field ;;
      if negb present then Ok (Some field) else first_missing data rest
  end.

(** The body of the [try] statement of [api_calculate]; [get_json] is the
    outcome of [request.get_json()].  The calls of the logger are left out:
    the f-string of [logger.info] formats operands that [float] accepted, an
    operator that is a key and the result, so its ints have fewer than 640
    digits and it raises nothing. *)
Definition api_calculate_try (get_json : result value) : result response :=
  data <- get_json ;;
  if negb (truthy data) then
    Ok {| body := jsonify [("success", Atom (ABool false));
                           ("error", Atom (AStr "No data provided"))];
          status := 400 |}
  else
    missing <- first_missing data required_fields ;;
    match missing with
    | Some field =>
        Ok {| body := jsonify
                 [("success", Atom (ABool false));
                  ("error", Atom (AStr ("Missing required field: " ++ field)))];
              status := 400 |}
    | None =>
        num1 <- getitem data "num1" ;;
        operator <- getitem data "operator" ;;
        num2 <- getitem data "num2" ;;
        match (_ <- float_of num1 ;; float_of num2) with
        | Raise (ValueError _) | Raise TypeError =>
            Ok {| body := jsonify [("success", Atom (ABool false));
                                   ("error", Atom (AStr "Invalid number format"))];
                  status := 400 |}
        | Raise e => Raise e
        | Ok _ =>
            result <- calculate num1 operator num2 ;;
            i <- int_of_float result ;;
            result <- (if float_eq_int result i
                       then j <- int_of_float result ;; Ok (AInt j)
                       else Ok (AFloat (round result 10))) ;;
            Ok {| body := jsonify [("success", Atom (ABool true));
                                   ("result", Atom result)];
                  status := 200 |}
        end
    end.

(** [api_calculate] with its two [except] clauses. *)
Definition api_calculate (get_json : result value) : response :=
  match api_calculate_try get_json with
  | Ok r => r
  | Raise (ValueError msg) =>
      {| body := jsonify [("success", Atom (ABool false));
                          ("error", Atom (AStr msg))];
         status := 400 |}
  | Raise _ =>
      {| body := jsonify [("success", Atom (ABool false));
                          ("error", Atom (AStr "An unexpected error occurred"))];
         status := 500 |}
  end.

End Routes.

Definition health_check : response :=
  {| body := jsonify [("status", Atom (AStr "healthy"));
                      ("message", Atom (AStr "Calculator API is running"))];
     status := 200 |}.

Definition not_found : response :=
  {| body := jsonify [("success", Atom (ABool false));
                      ("error", Atom (AStr "Endpoint not found"))];
     status := 404 |}.

Definition internal_error : response :=
  {| body := jsonify [("success", Atom (ABool false));
                      ("error", Atom (AStr "Internal server error"))];
     status := 500 |}.

(** ** The start of the server

    The part of the main block that computes the port; [app.run] is not
    modelled. *)

(** The text of the [ValueError] of [int(s)] for a text that is no numeral,
    quoted as [could_not_convert] is. *)
Definition invalid_literal (s : string) : string :=
  ("invalid literal for int() with base 10: '" ++ s ++ "'")%string.

Definition exceeds_limit (limit n : Z) : string :=
  ("Exceeds the limit (" ++ str_of_int limit
   ++ " digits) for integer string conversion: value has " ++ str_of_int n
   ++ " digits; use sys.set_int_max_str_digits() to increase the limit")%string.

(** The scan of [long_from_string_base] in base 10: the digits of [l], with
    single underscores between them, up to the first other character.
    [prev] is the character before [l]; the result is the value of the
    digits appended to [acc], their number added to [n], and what follows. *)
Fixpoint scan_digits (prev : ascii) (l : list ascii) (acc n : Z)
  : option (Z * Z * list ascii) :=
  match l with
  | c :: r =>
      if is_digit c then scan_digits c r (10 * acc + digit_value c) (n + 1)
      else if is_char c "_" then
        if is_char prev "_" then None else scan_digits c r acc n
      else if is_char prev "_" then None else Some (acc, n, l)
  | [] => if is_char prev "_" then None else Some (acc, n, [])
  end.

Section Start.

Variable ascii_of_unicode : string -> string.

(** [sys.get_int_max_str_digits()]: the longest numeral [int] reads, 0 when
    there is no limit (as before Python 3.11). *)
Variable max_str_digits : Z.

(** [int(s)] for a [str]: [PyLong_FromString] in base 10. *)
Definition int_of_str (s : string) : result Z :=
  let '(neg, r) := sign (strip (chars (ascii_of_unicode s))) in
  match r with
  | c :: _ =>
      if is_char c "_" then Raise (ValueError (invalid_literal s))
      else
        match scan_digits Ascii.zero r 0 0 with
        | Some (v, n, rest) =>
            if (640 <? n) && (0 <? max_str_digits) && (max_str_digits <? n)
            then Raise (ValueError (exceeds_limit max_str_digits n))
            else if n =? 0 then Raise (ValueError (invalid_literal s))
            else
              match rest with
              | [] => Ok (cond_Zopp neg v)
              | _ :: _ => Raise (ValueError (invalid_literal s))
              end
        | None => Raise (ValueError (invalid_literal s))
        end
  | [] => Raise (ValueError (invalid_literal s))
  end.

(** [int(os.environ.get('PORT', 8000))], for the environment [environ]. *)
Definition port (environ : list (string * string)) : result Z :=
  match lookup "PORT" environ with
  | Some s => int_of_str s
  | None => Ok 8000
  end.

End Start.

(** ** Vocabulary of the properties *)

(** The two bodies a calculation answers with. *)
Definition success (result : atom) : response :=
  {| body := jsonify [("success", Atom (ABool true)); ("result", Atom result)];
     status := 200 |}.

Definition failure (msg : string) (code : Z) : response :=
  {| body := jsonify [("success", Atom (ABool false));
                      ("error", Atom (AStr msg))];
     status := code |}.

(** A field of the JSON object a response carries. *)
Definition field (name : string) (r : response) : option value :=
  match body r with
  | VDict d => lookup name d
  | _ => None
  end.

Definition is_number (v : value) : bool :=
  match v with
  | Atom (AInt _) | Atom (AFloat _) => true
  | _ => false
  end.

(** The request body is the JSON object [d] and holds the three fields. *)
Definition has_fields (d : list (string * value))
  (num1 operator num2 : value) : Prop :=
  lookup "num1" d = Some num1 /\
  lookup "operator" d = Some operator /\
  lookup "num2" d = Some num2.

(** The JSON object with exactly the three fields. *)
Definition request (num1 operator num2 : value) : result value :=
  Ok (VDict [("num1", num1); ("operator", operator); ("num2", num2)]).

(** The multiplication sign U+00D7 and the division sign U+00F7. *)
Definition times_sign : string :=
  string_of_list_byte [Byte.xc3; Byte.x97].

Definition division_sign : string :=
  string_of_list_byte [Byte.xc3; Byte.xb7].

Definition is_zero (x : float) : bool :=
  match x with
  | S754_zero _ => true
  | _ => false
  end.

(** The shape of a CalculationResult: a boolean [success], a numeric
    [result] exactly when it is true, a textual [error] exactly when it is
    false. *)
Definition CalculationResult (r : response) : Prop :=
  exists b : bool,
    field "success" r = Some (Atom (ABool b)) /\
    (field "result" r <> None <-> b = true) /\
    (field "error" r <> None <-> b = false) /\
    (forall v, field "result" r = Some v -> is_number v = true) /\
    (forall v, field "error" r = Some v -> exists msg, v = Atom (AStr msg)).

(** The operands whose coercion does not consult the Unicode database. *)
Definition plain (v : value) : bool :=
  match v with
  | Atom (AStr s) => is_ascii s
  | _ => true
  end.

(** The fields a JSON object lacks. *)
Definition absent (body : list (string * value)) (f : string) : bool :=
  match lookup f body with
  | Some _ => false
  | None => true
  end.

(** The errors the validation of the operands catches. *)
Definition parse_error (e : exn) : bool :=
  match e with
  | ValueError _ | TypeError => true
  | _ => false
  end.

(** The messages an operation of [Calculator] fails with. *)
Definition operation_message (msg : string) : Prop :=
  msg = "Division by zero is not allowed" \/ exists s, msg = could_not_convert s.

(** What a request is answered with: a result that is a number, or an
    error. *)
Definition answered (r : response) : Prop :=
  (exists a, is_number (Atom a) = true /\ r = success a) \/
  (exists msg code, r = failure msg code).

Definition answers (r : result response) : Prop :=
  match r with
  | Ok resp => answered resp
  | Raise _ => True
  end.

(** The two [except] clauses of [api_calculate]. *)
Definition caught (r : result response) : response :=
  match r with
  | Ok resp => resp
  | Raise (ValueError msg) => failure msg 400
  | Raise _ => failure "An unexpected error occurred" 500
  end.

Section Validated.

Variable ascii_of_unicode : string -> string.
Variable max_str_digits : Z.

(** What [api_calculate] does with the three fields once it has read them
    (see [api_calculate_fields]). *)
Definition validated (num1 operator num2 : value) : result response :=
  match (_ <- float_of ascii_of_unicode num1 ;;
         float_of ascii_of_unicode num2) with
  | Raise (ValueError _) | Raise TypeError =>
      Ok (failure "Invalid number format" 400)
  | Raise e => Raise e
  | Ok _ =>
      result <- Calculator.calculate ascii_of_unicode max_str_digits
                  num1 operator num2 ;;
      i <- int_of_float result ;;
      result <- (if float_eq_int result i
                 then j <- int_of_float result ;; Ok (AInt j)
                 else Ok (AFloat (round result 10))) ;;
      Ok (success result)
  end.

End Validated.

Definition is_finite (x : float) : bool :=
  match x with
  | S754_zero _ | S754_finite _ _ _ => true
  | _ => false
  end.

(** The keys of [operations], in the order of the source. *)
Definition operator_keys : list string :=
  ["+"; "-"; "*"; Calculator.alt_multiply_key; "/"; Calculator.alt_divide_key].

(** What a request is answered with, by status: a result with 200, the text
    of an error with 400, the generic text with 500. *)
Definition answered_by_status (r : response) : Prop :=
  (exists a, r = success a) \/
  (exists msg, r = failure msg 400) \/
  r = failure "An unexpected error occurred" 500.

Definition answers_by_status (r : result response) : Prop :=
  match r with
  | Ok resp => answered_by_status resp
  | Raise _ => True
  end.

(** [operator] equals a key of [operations]. *)
Definition in_mapping (operator : value) : bool :=
  existsb (eq_str operator) operator_keys.

(** The limits the interpreter can be given: none (0), or at least 640
    digits; [sys.set_int_max_str_digits] and the start of the interpreter
    refuse the others. *)
Definition valid_limit (max_str_digits : Z) : Prop :=
  max_str_digits = 0 \/ 640 <= max_str_digits.

(** The ints [json.loads] returns under the limit: it reads the numeral of
    [z] with [int], which counts its digits once they are more than 640. *)
Definition loads_int (max_str_digits z : Z) : bool :=
  let digits := Z.of_nat (String.length (str_of_int (Z.abs z))) in
  negb ((640 <? digits) && (0 <? max_str_digits) && (max_str_digits <? digits)).

(** The values [request.get_json()] can return: those whose ints
    [json.loads] could read. *)
Fixpoint parsed (max_str_digits : Z) (v : value) : bool :=
  match v with
  | Atom (AInt z) => loads_int max_str_digits z
  | Atom _ => true
  | VList l => forallb (parsed max_str_digits) l
  | VDict d => forallb (fun kv => parsed max_str_digits (snd kv)) d
  end.

(** The texts [api_calculate] sends with status 400 for a body that
    [request.get_json()] returned. *)
Definition known_error (msg : string) : Prop :=
  msg = "No data provided" \/
  (exists f, In f required_fields /\ msg = "Missing required field: " ++ f) \/
  msg = "Invalid number format" \/
  (exists text, msg = "Invalid operator: " ++ text) \/
  msg = "Division by zero is not allowed" \/
  msg = "cannot convert float NaN to integer".

(** The float whose value is the integer [z], for [z] below [2 ^ 53] in
    magnitude: [z] written with 53 bits. *)
Definition float_of_small_int (z : Z) : float :=
  match z with
  | Z0 => S754_zero false
  | _ => S754_finite (z <? 0) (Z.to_pos (Z.abs z * 2 ^ (53 - Zdigits2 z)))
           (Zdigits2 z - 53)
  end.

(** ** The runtime at work *)

Example float_of_str_tenth :
  float_of_str ascii_text "0.1" = Ok (S754_finite false 7205759403792794 (-56)).
Proof. vm_compute. reflexivity. Qed.

Example float_of_str_spaces_underscores :
  float_of_str ascii_text "  -1_000.5e-3 " =
  Ok (S754_finite true 4505851427184181 (-52)).
Proof. vm_compute. reflexivity. Qed.

Example float_of_str_overflows_to_inf :
  float_of_str ascii_text "1e400" = Ok (S754_infinity false).
Proof. vm_compute. reflexivity. Qed.

Example float_of_str_refuses :
  map (float_of_str ascii_text) ["abc"; EmptyString; "1__0"; "_1"; "1e"; "."; "0x10"; "1 2"] =
  map (fun s => Raise (ValueError (could_not_convert s)))
      ["abc"; EmptyString; "1__0"; "_1"; "1e"; "."; "0x10"; "1 2"].
Proof. vm_compute. reflexivity. Qed.

Example float_of_int_ties_to_even :
  float_of_int (2 ^ 53 + 1) = float_of_int (2 ^ 53) /\
  float_of_int (2 ^ 53 + 3) = float_of_int (2 ^ 53 + 4).
Proof. split; vm_compute; reflexivity. Qed.

Example float_of_int_overflows :
  float_of_int (2 ^ 1024 - 2 ^ 970 - 1) = Ok (S754_finite false 9007199254740991 971) /\
  float_of_int (2 ^ 1024 - 2 ^ 970) = Raise OverflowError.
Proof. split; vm_compute; reflexivity. Qed.

Example round_ties_to_even :
  round (S754_finite false 4503599627370496 (-55)) 2 = float_of_decimal false 12 (-2).
Proof. vm_compute. reflexivity. Qed.

Example float_repr_examples :
  map (fun s => match float_of_str ascii_text s with
                | Ok x => float_repr x
                | Raise _ => EmptyString
                end)
      ["1"; "0.1"; "1e16"; "1e15"; "0.00001"; "5e-324"; "-2.5e-7";
       "0.30000000000000004"; "1e23"; "9007199254740993"; "-0.0"; "-inf"] =
  ["1.0"; "0.1"; "1e+16"; "1000000000000000.0"; "1e-05"; "5e-324"; "-2.5e-07";
   "0.30000000000000004"; "1e+23"; "9007199254740992.0"; "-0.0"; "-inf"].
Proof. vm_compute. reflexivity. Qed.

(** [str] of an int at the limit of the interpreter: 4300 digits are
    printed and 4301 are not; the sign does not count; 0 is no limit. *)
Example str_at_the_limit :
  map (fun '(limit, z) => match str limit (AInt z) with
                          | Ok s => Ok (Z.of_nat (String.length s))
                          | Raise e => Raise e
                          end)
      [(4300, 10 ^ 4300 - 1); (4300, 10 ^ 4300); (4300, - (10 ^ 4300 - 1));
       (4300, - 10 ^ 4300); (640, - 10 ^ 639); (640, 10 ^ 640); (0, 10 ^ 5000)] =
  [Ok 4300;
   Raise (ValueError "Exceeds the limit (4300 digits) for integer string conversion; use sys.set_int_max_str_digits() to increase the limit");
   Ok 4301;
   Raise (ValueError "Exceeds the limit (4300 digits) for integer string conversion; use sys.set_int_max_str_digits() to increase the limit");
   Ok 641;
   Raise (ValueError "Exceeds the limit (640 digits) for integer string conversion; use sys.set_int_max_str_digits() to increase the limit");
   Ok 5001].
Proof. vm_compute. reflexivity. Qed.

(** ** Facts about the runtime *)

Lemma pow2_pos (e : Z) : 0 <= e -> 0 < 2 ^ e.
Proof. intros; apply Z.pow_pos_nonneg; lia. Qed.

Lemma float_eq_int_0 (x : float) : float_eq_int x 0 = is_zero x.
Proof.
  destruct x as [s|s| |s m e]; try reflexivity.
  unfold float_eq_int, is_zero.
  destruct (0 <=? e) eqn:He.
  - apply Z.leb_le in He. pose proof (pow2_pos e He).
    apply Z.eqb_neq. destruct s; unfold cond_Zopp; nia.
  - apply Z.eqb_neq. destruct s; unfold cond_Zopp; lia.
Qed.

Section Dispatch.

Variable T : string -> string.
Variable L : Z.

Lemma calculate_plus (a b : value) :
  Calculator.calculate T L a (AStr "+") b = Calculator.add T a b.
Proof. reflexivity. Qed.

Lemma calculate_minus (a b : value) :
  Calculator.calculate T L a (AStr "-") b = Calculator.subtract T a b.
Proof. reflexivity. Qed.

Lemma calculate_star (a b : value) :
  Calculator.calculate T L a (AStr "*") b = Calculator.multiply T a b.
Proof. reflexivity. Qed.

Lemma calculate_slash (a b : value) :
  Calculator.calculate T L a (AStr "/") b = Calculator.divide T a b.
Proof. reflexivity. Qed.

Lemma calculate_alt_multiply (a b : value) :
  Calculator.calculate T L a (AStr Calculator.alt_multiply_key) b = Calculator.multiply T a b.
Proof. reflexivity. Qed.

Lemma calculate_alt_divide (a b : value) :
  Calculator.calculate T L a (AStr Calculator.alt_divide_key) b = Calculator.divide T a b.
Proof. reflexivity. Qed.

Lemma calculate_absent (a b : value) (key : atom) :
  has_key (Calculator.operations T) key = false ->
  Calculator.calculate T L a (Atom key) b =
  (text <- str L key ;; Raise (ValueError ("Invalid operator: " ++ text))).
Proof. intros H. unfold Calculator.calculate. simpl. rewrite H. reflexivity. Qed.

(** [str] returns, or raises the [ValueError] of an int that is too long. *)
Lemma str_cases (key : atom) :
  (exists text, str L key = Ok text) \/
  str L key = Raise (ValueError (exceeds_limit_to_str L)).
Proof.
  destruct key as [ | b | z | x | s]; cbn [str]; eauto.
  unfold long_to_decimal_string.
  destruct (_ && _); eauto.
Qed.

Lemma str_raises (key : atom) (e : exn) :
  str L key = Raise e -> e = ValueError (exceeds_limit_to_str L).
Proof.
  destruct (str_cases key) as [[text ->] | ->]; [discriminate|].
  intros H. inversion H. reflexivity.
Qed.

End Dispatch.

(** ** Facts about the handler *)

Section Handler.

Variable T : string -> string.
Variable L : Z.

Lemma api_calculate_caught (get_json : result value) :
  api_calculate T L get_json = caught (api_calculate_try T L get_json).
Proof. reflexivity. Qed.

Lemma has_fields_truthy d num1 operator num2 :
  has_fields d num1 operator num2 -> truthy (VDict d) = true.
Proof. intros [H _]. destruct d; [discriminate | reflexivity]. Qed.

Lemma api_calculate_fields d num1 operator num2 :
  has_fields d num1 operator num2 ->
  api_calculate_try T L (Ok (VDict d)) = validated T L num1 operator num2.
Proof.
  intros H. pose proof (has_fields_truthy _ _ _ _ H) as Ht.
  destruct H as (H1 & H2 & H3).
  unfold api_calculate_try. cbn [bind]. rewrite Ht. cbn [negb].
  unfold required_fields, first_missing, contains, getitem.
  rewrite H1, H2, H3. reflexivity.
Qed.

End Handler.

Section Operations.

Variable T : string -> string.

Lemma float_of_ValueError (v : value) (msg : string) :
  float_of T v = Raise (ValueError msg) -> exists s, msg = could_not_convert s.
Proof.
  destruct v as [[ | b | z | x | s] | l | d]; simpl; try discriminate.
  - unfold float_of_int.
    destruct (binary_normalize prec emax (if b then 1 else 0) 0 false); discriminate.
  - unfold float_of_int.
    destruct (binary_normalize prec emax z 0 false); discriminate.
  - unfold float_of_str.
    destruct (drop_underscores _ _) as [l|]; [destruct (parse_float l)|];
      intros H; inversion H; eauto.
Qed.

Lemma arith_ValueError (f : float -> float -> float) (a b : value) (msg : string) :
  (x <- float_of T a ;; y <- float_of T b ;; Ok (f x y)) = Raise (ValueError msg) ->
  operation_message msg.
Proof.
  destruct (float_of T a) as [x|e] eqn:Ha; simpl.
  - destruct (float_of T b) as [y|e] eqn:Hb; simpl; [discriminate|].
    intros H; inversion H; subst. right. eapply float_of_ValueError; eauto.
  - intros H; inversion H; subst. right. eapply float_of_ValueError; eauto.
Qed.

Lemma divide_ValueError (a b : value) (msg : string) :
  Calculator.divide T a b = Raise (ValueError msg) -> operation_message msg.
Proof.
  unfold Calculator.divide.
  destruct (float_of T b) as [d|e] eqn:Hb; simpl.
  - destruct (float_eq_int d 0).
    + intros H; inversion H. left; reflexivity.
    + destruct (float_of T a) as [x|e] eqn:Ha; simpl; [discriminate|].
      intros H; inversion H; subst. right. eapply float_of_ValueError; eauto.
  - intros H; inversion H; subst. right. eapply float_of_ValueError; eauto.
Qed.

Lemma operations_ValueError (s : string) op (a b : value) (msg : string) :
  lookup s (Calculator.operations T) = Some op ->
  op a b = Raise (ValueError msg) -> operation_message msg.
Proof.
  unfold Calculator.operations. cbn [lookup].
  repeat match goal with
  | |- context [if ?c then _ else _] => destruct c
  end; intros H; inversion H; subst;
  first [ apply divide_ValueError | apply arith_ValueError ].
Qed.

Lemma operation_message_not_invalid (msg : string) :
  ~ operation_message ("Invalid operator: " ++ msg).
Proof. intros [H | [s H]]; discriminate. Qed.

End Operations.

Section Unobserved.

Variable T : string -> string.
Variable L : Z.

(** An operator that is a list or an object is unhashable: the membership
    test raises [TypeError], which is answered with status 500. *)
Lemma calculate_unhashable (num1 operator num2 : value) :
  hashable operator = Raise TypeError ->
  Calculator.calculate T L num1 operator num2 = Raise TypeError.
Proof. intros H. unfold Calculator.calculate. rewrite H. reflexivity. Qed.

(** Once both operands are coerced, an operation returns or raises the
    division-by-zero error. *)
Lemma operations_validated (s : string) op (a b : value) x y :
  float_of T a = Ok x -> float_of T b = Ok y ->
  lookup s (Calculator.operations T) = Some op ->
  (exists r, op a b = Ok r) \/
  op a b = Raise (ValueError "Division by zero is not allowed").
Proof.
  intros Ha Hb. unfold Calculator.operations. cbn [lookup].
  repeat match goal with
  | |- context [if ?c then _ else _] => destruct c
  end; intros H; inversion H; subst;
  unfold Calculator.add, Calculator.subtract, Calculator.multiply, Calculator.divide;
  rewrite ?Ha, ?Hb; cbn [bind]; try destruct (float_eq_int y 0); eauto.
Qed.

Lemma contains_error (data : value) (f : string) (e : exn) :
  contains data f = Raise e -> e = TypeError.
Proof.
  destruct data as [[ | b | z | x | t] | l | d]; simpl; intros H;
    inversion H; reflexivity.
Qed.

Lemma first_missing_error (data : value) (fields : list string) (e : exn) :
  first_missing data fields = Raise e -> e = TypeError.
Proof.
  induction fields as [|f fields IH]; simpl; [discriminate|].
  destruct (contains data f) as [present|e'] eqn:Hc; cbn [bind].
  - destruct present; cbn [negb]; [exact IH | discriminate].
  - intros H; inversion H; subst. eapply contains_error; eauto.
Qed.

Lemma getitem_error (data : value) (k : string) (e : exn) :
  getitem data k = Raise e -> e = TypeError \/ e = KeyError.
Proof.
  destruct data as [a | l | d]; simpl;
    try destruct (lookup k d); intros H; inversion H; auto.
Qed.

(** The text of the [ValueError] of [float] reaches no response: the
    validation catches it, and the calculation coerces the operands the
    validation accepted. *)
Lemma float_error_is_caught (data : value) (s : string) (code : Z) :
  api_calculate T L (Ok data) <> failure (could_not_convert s) code.
Proof.
  unfold api_calculate, api_calculate_try. cbn [bind].
  destruct (negb (truthy data)); [discriminate|].
  destruct (first_missing data required_fields) as [[f|]|e] eqn:Hm; cbn [bind];
    [discriminate | | rewrite (first_missing_error _ _ _ Hm); discriminate].
  destruct (getitem data "num1") as [num1|e] eqn:G1; cbn [bind];
    [|destruct (getitem_error _ _ _ G1) as [-> | ->]; discriminate].
  destruct (getitem data "operator") as [operator|e] eqn:G2; cbn [bind];
    [|destruct (getitem_error _ _ _ G2) as [-> | ->]; discriminate].
  destruct (getitem data "num2") as [num2|e] eqn:G3; cbn [bind];
    [|destruct (getitem_error _ _ _ G3) as [-> | ->]; discriminate].
  destruct (float_of T num1) as [x|e] eqn:H1; cbn [bind];
    [|destruct e; discriminate].
  destruct (float_of T num2) as [y|e] eqn:H2; cbn [bind];
    [|destruct e; discriminate].
  unfold Calculator.calculate.
  destruct operator as [key | l | d]; cbn [hashable bind]; try discriminate.
  destruct (has_key (Calculator.operations T) key) eqn:Hk; cbn [negb bind];
    [|destruct (str_cases L key) as [[text ->] | ->]; cbn [bind]; discriminate].
  destruct key as [ | b | z | f | k]; try discriminate Hk. cbn [has_key item] in *.
  destruct (lookup k (Calculator.operations T)) as [op|] eqn:Hl; [|discriminate].
  cbn [bind].
  destruct (operations_validated k op num1 num2 x y H1 H2 Hl) as [[r ->] | ->];
    cbn [bind]; [|discriminate].
  destruct r as [sg|sg| |sg m e]; cbn [int_of_float bind]; try discriminate;
    destruct (float_eq_int _ _); discriminate.
Qed.

End Unobserved.

Section Validation.

Variable T : string -> string.
Variable L : Z.

(** The operands are rejected, whatever the operator is, when [float(num1)]
    raises a [ValueError] or a [TypeError], or returns and [float(num2)]
    raises one. *)
Lemma validation_rejects body num1 operator num2 e :
  has_fields body num1 operator num2 ->
  parse_error e = true ->
  float_of T num1 = Raise e \/
    ((exists x, float_of T num1 = Ok x) /\ float_of T num2 = Raise e) ->
  api_calculate T L (Ok (VDict body)) = failure "Invalid number format" 400.
Proof.
  intros Hf He H.
  rewrite api_calculate_caught, (api_calculate_fields T L _ _ _ _ Hf).
  unfold validated.
  destruct H as [H | [[x Hx] H]]; [rewrite H | rewrite Hx, H]; cbn [bind];
    destruct e; try discriminate; reflexivity.
Qed.

(** An [int] beyond the floats is not caught by the validation. *)
Lemma validation_overflow body num1 operator num2 :
  has_fields body num1 operator num2 ->
  float_of T num1 = Raise OverflowError ->
  api_calculate T L (Ok (VDict body)) = failure "An unexpected error occurred" 500.
Proof.
  intros Hf H.
  rewrite api_calculate_caught, (api_calculate_fields T L _ _ _ _ Hf).
  unfold validated. rewrite H. reflexivity.
Qed.

End Validation.

Lemma float_of_str_ascii (T : string -> string) (s : string) :
  keeps_ascii T -> is_ascii s = true ->
  float_of_str T s = float_of_str ascii_text s.
Proof. intros HT Hs. unfold float_of_str, ascii_text. rewrite (HT s Hs). reflexivity. Qed.

Section Shape.

Variable T : string -> string.
Variable L : Z.

Lemma caught_answered (r : result response) : answers r -> answered (caught r).
Proof.
  destruct r as [resp | e]; simpl; [trivial|].
  intros _. right. destruct e; do 2 eexists; reflexivity.
Qed.

Ltac answer_step :=
  match goal with
  | |- answers (Ok _) =>
      first [ left; eexists; split; [|reflexivity]; reflexivity
            | right; do 2 eexists; reflexivity ]
  | |- answers (Raise _) => exact I
  | |- answers (bind (Ok _) _) => cbn [bind]
  | |- answers (bind (if ?c then _ else _) _) => destruct c
  | |- answers (bind (bind ?r _) _) => destruct r; cbn [bind]
  | |- answers (bind ?r _) => destruct r; cbn [bind]
  | |- answers (if ?c then _ else _) => destruct c
  | |- answers (match ?x with _ => _ end) => destruct x; cbn [bind]
  end.

Lemma api_calculate_answers (get_json : result value) :
  answers (api_calculate_try T L get_json).
Proof. unfold api_calculate_try. repeat answer_step. Qed.

Lemma api_calculate_answered (get_json : result value) :
  answered (api_calculate T L get_json).
Proof. rewrite api_calculate_caught. apply caught_answered, api_calculate_answers. Qed.

Lemma answered_shape (r : response) : answered r -> CalculationResult r.
Proof.
  intros [(a & Ha & ->) | (msg & code & ->)].
  - exists true. unfold field; simpl. repeat split; congruence.
  - exists false. unfold field; simpl. repeat split; try congruence.
    intros v Hv. inversion Hv; subst. eauto.
Qed.

End Shape.

(** ** The normalisation of the result *)

Lemma integral_int_of_float (x : float) (q : Q) (z : Z) :
  Q_of_float x = Some q -> (q == inject_Z z)%Q ->
  int_of_float x = Ok z /\ float_eq_int x z = true.
Proof.
  destruct x as [s|s| |s m e]; try discriminate; intros Hq Hz;
    inversion Hq; subst; clear Hq.
  - apply (proj1 (inject_Z_injective 0 z)) in Hz. subst. split; reflexivity.
  - unfold int_of_float, float_eq_int.
    destruct (0 <=? e) eqn:He.
    + apply Z.leb_le in He. apply (proj1 (inject_Z_injective _ _)) in Hz. subst z.
      rewrite Z.shiftl_mul_pow2 by assumption.
      split; [|apply Z.eqb_refl].
      destruct s; unfold cond_Zopp; f_equal; lia.
    + apply Z.leb_gt in He.
      assert (Hp : 0 < 2 ^ (- e)) by (apply pow2_pos; lia).
      unfold Qeq in Hz. cbn [Qnum Qden inject_Z] in Hz.
      rewrite Z2Pos.id in Hz by assumption. rewrite Z.mul_1_r in Hz.
      rewrite Hz, Z.eqb_refl. split; [|reflexivity].
      rewrite Z.shiftl_div_pow2 by lia. f_equal.
      destruct s; unfold cond_Zopp in *.
      * replace (Z.pos m) with ((- z) * 2 ^ (- e)) by lia.
        rewrite Z.div_mul by lia. lia.
      * rewrite Hz, Z.div_mul by lia. reflexivity.
Qed.

Lemma float_eq_int_integral (x : float) (q : Q) (z : Z) :
  Q_of_float x = Some q -> float_eq_int x z = true -> (q == inject_Z z)%Q.
Proof.
  destruct x as [s|s| |s m e]; try discriminate; intros Hq Hz;
    inversion Hq; subst; clear Hq.
  - simpl in Hz. apply Z.eqb_eq in Hz. subst. reflexivity.
  - unfold float_eq_int in Hz. destruct (0 <=? e) eqn:He.
    + apply Z.eqb_eq in Hz. subst. reflexivity.
    + apply Z.leb_gt in He. apply Z.eqb_eq in Hz.
      assert (Hp : 0 < 2 ^ (- e)) by (apply pow2_pos; lia).
      unfold Qeq. cbn [Qnum Qden inject_Z].
      rewrite Z2Pos.id by assumption. lia.
Qed.

Lemma int_of_float_finite (x : float) (i : Z) :
  int_of_float x = Ok i -> exists q, Q_of_float x = Some q.
Proof. destruct x; try discriminate; intros _; eexists; reflexivity. Qed.

Lemma finite_int_of_float (x : float) (q : Q) :
  Q_of_float x = Some q -> exists i, int_of_float x = Ok i.
Proof. destruct x; try discriminate; intros _; eexists; reflexivity. Qed.

Lemma round_half_even_nearest (n d : Z) :
  0 <= n -> 0 < d ->
  0 <= round_half_even n d /\ 2 * Z.abs (round_half_even n d * d - n) <= d.
Proof.
  intros Hn Hd. unfold round_half_even.
  pose proof (Z.div_mod n d ltac:(lia)) as E.
  pose proof (Z.mod_pos_bound n d Hd) as B.
  pose proof (Z.div_pos n d Hn Hd) as P.
  destruct (2 * (n mod d) ?= d) eqn:C;
    [apply Z.compare_eq in C | rewrite Z.compare_lt_iff in C
     | rewrite Z.compare_gt_iff in C];
    try destruct (Z.even (n / d)); nia.
Qed.

Section Normalisation.

Variable T : string -> string.
Variable L : Z.

Lemma arith_Ok (f : float -> float -> float) (a b : value) (r : float) :
  (x <- float_of T a ;; y <- float_of T b ;; Ok (f x y)) = Ok r ->
  exists x y, float_of T a = Ok x /\ float_of T b = Ok y.
Proof.
  destruct (float_of T a) as [x|]; [|discriminate].
  destruct (float_of T b) as [y|]; [|discriminate]. eauto.
Qed.

Lemma divide_Ok (a b : value) (r : float) :
  Calculator.divide T a b = Ok r ->
  exists x y, float_of T a = Ok x /\ float_of T b = Ok y.
Proof.
  unfold Calculator.divide.
  destruct (float_of T b) as [y|]; [|discriminate]. cbn [bind].
  destruct (float_eq_int y 0); [discriminate|].
  destruct (float_of T a) as [x|]; [|discriminate]. eauto.
Qed.

(** A calculation that returns has coerced both operands. *)
Lemma calculate_Ok (num1 operator num2 : value) (r : float) :
  Calculator.calculate T L num1 operator num2 = Ok r ->
  exists x y, float_of T num1 = Ok x /\ float_of T num2 = Ok y.
Proof.
  unfold Calculator.calculate.
  destruct operator as [key | l | d]; try discriminate. cbn [hashable bind].
  destruct (has_key (Calculator.operations T) key); cbn [negb];
    [|destruct (str_cases L key) as [[text ->] | ->]; discriminate].
  destruct key as [ | b | z | x | s]; try discriminate. cbn [item].
  unfold Calculator.operations. cbn [lookup].
  repeat match goal with
  | |- context [if ?c then _ else _] => destruct c
  end; cbn [bind]; try discriminate;
  first [ apply divide_Ok | apply arith_Ok ].
Qed.

Lemma normalised body num1 operator num2 r i :
  has_fields body num1 operator num2 ->
  Calculator.calculate T L num1 operator num2 = Ok r ->
  int_of_float r = Ok i ->
  api_calculate T L (Ok (VDict body)) =
    success (if float_eq_int r i then AInt i else AFloat (round r 10)).
Proof.
  intros Hf Hc Hi.
  destruct (calculate_Ok _ _ _ _ Hc) as (x & y & Hx & Hy).
  rewrite api_calculate_caught, (api_calculate_fields T L _ _ _ _ Hf).
  unfold validated. rewrite Hx, Hy. cbn [bind]. rewrite Hc. cbn [bind].
  rewrite Hi. cbn [bind].
  destruct (float_eq_int r i); reflexivity.
Qed.

(** A response with [success] true comes from a calculation that returned,
    and carries its result normalised. *)
Lemma success_is_normalised (get_json : result value) (a : atom) :
  api_calculate T L get_json = success a ->
  exists data num1 operator num2 r i,
    get_json = Ok data /\
    getitem data "num1" = Ok num1 /\
    getitem data "operator" = Ok operator /\
    getitem data "num2" = Ok num2 /\
    Calculator.calculate T L num1 operator num2 = Ok r /\
    int_of_float r = Ok i /\
    a = (if float_eq_int r i then AInt i else AFloat (round r 10)).
Proof.
  unfold api_calculate, api_calculate_try.
  destruct get_json as [data | e]; cbn [bind]; [|destruct e; discriminate].
  destruct (negb (truthy data)); [discriminate|].
  destruct (first_missing data required_fields) as [[f|]|e]; cbn [bind];
    [discriminate | | destruct e; discriminate].
  destruct (getitem data "num1") as [num1|e] eqn:G1; cbn [bind];
    [|destruct e; discriminate].
  destruct (getitem data "operator") as [operator|e] eqn:G2; cbn [bind];
    [|destruct e; discriminate].
  destruct (getitem data "num2") as [num2|e] eqn:G3; cbn [bind];
    [|destruct e; discriminate].
  destruct (float_of T num1) as [x|e]; cbn [bind]; [|destruct e; discriminate].
  destruct (float_of T num2) as [y|e]; cbn [bind]; [|destruct e; discriminate].
  destruct (Calculator.calculate T L num1 operator num2) as [r|e] eqn:Hc;
    cbn [bind];
    [|destruct e; discriminate].
  destruct (int_of_float r) as [i|e] eqn:Hi; cbn [bind];
    [|destruct e; discriminate].
  intros H. exists data, num1, operator, num2, r, i.
  repeat split; try assumption.
  destruct (float_eq_int r i); cbn [bind] in H; inversion H; reflexivity.
Qed.

End Normalisation.

(** ** Operands that are ASCII text *)

Section Plain.

Variable T : string -> string.
Variable L : Z.
Hypothesis T_keeps_ascii : keeps_ascii T.

Lemma float_of_plain (v : value) :
  plain v = true -> float_of T v = float_of ascii_text v.
Proof.
  destruct v as [[ | b | z | x | s] | l | d]; try reflexivity.
  intros Hs. apply float_of_str_ascii; assumption.
Qed.

Lemma calculate_plain (num1 operator num2 : value) :
  plain num1 = true -> plain num2 = true ->
  Calculator.calculate T L num1 operator num2 =
  Calculator.calculate ascii_text L num1 operator num2.
Proof.
  intros H1 H2. unfold Calculator.calculate.
  destruct operator as [key | l | d]; try reflexivity. cbn [hashable bind].
  destruct key as [ | b | z | x | s]; try reflexivity.
  unfold has_key, item, Calculator.operations. cbn [lookup].
  repeat match goal with
  | |- context [if String.eqb ?k s then _ else _] => destruct (String.eqb k s)
  end; cbn [negb bind]; try reflexivity;
  unfold Calculator.add, Calculator.subtract, Calculator.multiply, Calculator.divide;
  rewrite !(float_of_plain num1 H1), !(float_of_plain num2 H2); reflexivity.
Qed.

Lemma api_calculate_plain body num1 operator num2 :
  has_fields body num1 operator num2 ->
  plain num1 = true -> plain num2 = true ->
  api_calculate T L (Ok (VDict body)) = api_calculate ascii_text L (Ok (VDict body)).
Proof.
  intros Hf H1 H2.
  rewrite !api_calculate_caught, !(api_calculate_fields _ _ _ _ _ _ Hf).
  unfold validated.
  rewrite (calculate_plain _ operator _ H1 H2),
    (float_of_plain num1 H1), (float_of_plain num2 H2).
  reflexivity.
Qed.

End Plain.

Section Messages.

Variable T : string -> string.
Variable L : Z.

Lemma calculate_ValueError (num1 operator num2 : value) (msg : string) :
  Calculator.calculate T L num1 operator num2 = Raise (ValueError msg) ->
  (exists m, msg = "Invalid operator: " ++ m) \/ operation_message msg \/
  msg = exceeds_limit_to_str L.
Proof.
  unfold Calculator.calculate.
  destruct operator as [key | l | d]; try discriminate. cbn [hashable bind].
  destruct (has_key (Calculator.operations T) key) eqn:Ha; cbn [negb].
  - destruct key as [ | b | z | x | s]; try discriminate Ha. cbn [has_key item] in *.
    destruct (lookup s (Calculator.operations T)) as [op|] eqn:Hl; [|discriminate].
    cbn [bind]. intros H. right. left. eapply operations_ValueError; eauto.
  - destruct (str_cases L key) as [[text ->] | ->]; cbn [bind];
      intros H; inversion H; subst; [left; eexists; reflexivity | auto].
Qed.

(** Operands that [float] accepts are never answered with the error of the
    validation. *)
Lemma accepted_operands body num1 operator num2 x y code :
  has_fields body num1 operator num2 ->
  float_of T num1 = Ok x -> float_of T num2 = Ok y ->
  api_calculate T L (Ok (VDict body)) <> failure "Invalid number format" code.
Proof.
  intros Hf H1 H2.
  rewrite api_calculate_caught, (api_calculate_fields T L _ _ _ _ Hf).
  unfold validated. rewrite H1, H2. cbn [bind].
  destruct (Calculator.calculate T L num1 operator num2) as [r | e] eqn:Hc; cbn [bind].
  - destruct r as [s|s| |s m e]; cbn [int_of_float bind]; try discriminate;
      destruct (float_eq_int _ _); discriminate.
  - destruct e as [msg | | | | c]; try discriminate.
    destruct (calculate_ValueError _ _ _ _ Hc) as [[m ->] | [[-> | [s ->]] | ->]];
      discriminate.
Qed.

End Messages.

Lemma in_mapping_has_key (T : string -> string) (key : atom) :
  in_mapping (Atom key) = has_key (Calculator.operations T) key.
Proof.
  destruct key as [ | b | z | x | s]; try reflexivity.
  unfold in_mapping, operator_keys, has_key, Calculator.operations.
  cbn [existsb eq_str lookup].
  rewrite !(String.eqb_sym s).
  repeat match goal with
  | |- context [String.eqb ?k s] => destruct (String.eqb k s)
  end; reflexivity.
Qed.

(** ** The properties of the specification

    In the statements [T] is the transformation of Unicode text to ASCII of
    the interpreter, [ascii_of_unicode] above, and [L] its limit on the digits
    of an int, [max_str_digits] above; [keeps_ascii T] is assumed where a text
    is coerced, and the statements hold for every [L]. *)

(** C1: the multiplication sign U+00D7 and the division sign U+00F7 are not
    keys of [operations]: for every pair of operands [calculate] raises the
    invalid-operator [ValueError] under them, while ["*"] and ["/"] compute
    (2 * 3 is 6, 6 / 3 is 2). *)
Theorem unicode_signs_are_not_keys (T : string -> string) (L : Z) (a b : value) :
  Calculator.calculate T L a (AStr times_sign) b =
    Raise (ValueError ("Invalid operator: " ++ times_sign)) /\
  Calculator.calculate T L a (AStr division_sign) b =
    Raise (ValueError ("Invalid operator: " ++ division_sign)) /\
  Calculator.calculate T L (AInt 2) (AStr "*") (AInt 3) = float_of_int 6 /\
  Calculator.calculate T L (AInt 6) (AStr "/") (AInt 3) = float_of_int 2 /\
  api_calculate T L (request (AInt 2) (AStr times_sign) (AInt 3)) =
    failure ("Invalid operator: " ++ times_sign) 400.
Proof. repeat split. Qed.

(** C2: every response with [success] true carries the result [r] of a
    calculation of its request, a finite float, normalised: the [int] [z]
    when the exact value of [r] is the integer [z], the float [round(r, 10)]
    when it is no integer; and every request whose calculation returns a
    finite float is answered so.  [round(r, 10)] is the float nearest to
    [n / 10 ^ 10] for the integer [n] nearest to [r * 10 ^ 10], ties to even.
    So 2 + 2 is answered with 4 and 1 / 3 with the float of 0.3333333333. *)
Theorem result_is_normalised (T : string -> string) (L : Z) :
  (forall get_json a,
     api_calculate T L get_json = success a ->
     exists data num1 operator num2 r q,
       get_json = Ok data /\
       getitem data "num1" = Ok num1 /\
       getitem data "operator" = Ok operator /\
       getitem data "num2" = Ok num2 /\
       Calculator.calculate T L num1 operator num2 = Ok r /\
       Q_of_float r = Some q /\
       ((exists z, (q == inject_Z z)%Q /\ a = AInt z) \/
        ((forall z, ~ (q == inject_Z z)%Q) /\ a = AFloat (round r 10)))) /\
  (forall body num1 operator num2 r q,
     has_fields body num1 operator num2 ->
     Calculator.calculate T L num1 operator num2 = Ok r ->
     Q_of_float r = Some q ->
     (forall z, (q == inject_Z z)%Q ->
        api_calculate T L (Ok (VDict body)) = success (AInt z)) /\
     ((forall z, ~ (q == inject_Z z)%Q) ->
        api_calculate T L (Ok (VDict body)) = success (AFloat (round r 10)))) /\
  (forall s m e,
     let d := 2 ^ Z.max (- e) 0 in
     exists n, round (S754_finite s m e) 10 = float_of_decimal s n (-10) /\
               0 <= n /\
               2 * Z.abs (n * d - Zpos m * 2 ^ Z.max e 0 * 10 ^ 10) <= d) /\
  api_calculate T L (request (AInt 2) (AStr "+") (AInt 2)) = success (AInt 4) /\
  api_calculate T L (request (AInt 1) (AStr "/") (AInt 3)) =
    success (AFloat (float_of_decimal false 3333333333 (-10))).
Proof.
  split; [|split; [|split; [|split]]].
  - intros get_json a H.
    destruct (success_is_normalised T L get_json a H)
      as (data & num1 & operator & num2 & r & i & Hd & G1 & G2 & G3 & Hc & Hi & Ha).
    destruct (int_of_float_finite r i Hi) as [q Hq].
    exists data, num1, operator, num2, r, q. repeat split; try assumption.
    destruct (float_eq_int r i) eqn:Hb.
    + left. exists i. split; [exact (float_eq_int_integral r q i Hq Hb) | exact Ha].
    + right. split; [|exact Ha]. intros z Hz.
      destruct (integral_int_of_float r q z Hq Hz) as [Hi' Hb'].
      rewrite Hi in Hi'. inversion Hi'; subst. congruence.
  - intros body num1 operator num2 r q Hf Hc Hq.
    destruct (finite_int_of_float r q Hq) as [i Hi].
    pose proof (normalised T L _ _ _ _ _ _ Hf Hc Hi) as E.
    split.
    + intros z Hz. destruct (integral_int_of_float r q z Hq Hz) as [Hi' Hb].
      rewrite Hi in Hi'. inversion Hi'; subst. rewrite Hb in E. exact E.
    + intros Hn. destruct (float_eq_int r i) eqn:Hb; [|exact E].
      exfalso. exact (Hn i (float_eq_int_integral r q i Hq Hb)).
  - intros s m e d. eexists. split; [reflexivity|].
    apply round_half_even_nearest.
    + assert (0 < 2 ^ Z.max e 0) by (apply pow2_pos; lia). nia.
    + apply pow2_pos; lia.
  - reflexivity.
  - vm_compute. reflexivity.
Qed.

Lemma result_is_normalised_witness :
  api_calculate ascii_text 4300 (request (AStr "1.5") (AStr "*") (AInt 4)) = success (AInt 6) /\
  api_calculate ascii_text 4300 (request (AStr "0.1") (AStr "+") (AStr "0.2")) =
    success (AFloat (round (S754_finite false 5404319552844596 (-54)) 10)).
Proof.
  destruct (result_is_normalised ascii_text 4300) as (_ & H & _).
  split.
  - refine (proj1 (H _ (Atom (AStr "1.5")) (Atom (AStr "*")) (Atom (AInt 4))
                     (S754_finite false 6755399441055744 (-50))
                     (6755399441055744 # 1125899906842624)%Q _ _ _) 6 _).
    + repeat split.
    + vm_compute. reflexivity.
    + vm_compute. reflexivity.
    + vm_compute. reflexivity.
  - refine (proj2 (H _ (Atom (AStr "0.1")) (Atom (AStr "+")) (Atom (AStr "0.2"))
                     (S754_finite false 5404319552844596 (-54))
                     (5404319552844596 # 18014398509481984)%Q _ _ _) _).
    + repeat split.
    + vm_compute. reflexivity.
    + vm_compute. reflexivity.
    + intros z Hz. unfold Qeq in Hz. cbn [Qnum Qden inject_Z] in Hz. lia.
Defined.

(** C3: when [float(b)] is a zero, [divide(a, b)], and so
    [calculate(a, "/", b)], raises the division-by-zero [ValueError] whatever
    [a] is; when it is not, [divide(a, b)] is [float(a) / float(b)];
    [calculate(2, "/", 0)] raises it, and a request that reaches such a
    division is answered with status 400 and [success] false. *)
Theorem division_by_zero (T : string -> string) (L : Z) :
  (forall a b d, float_of T b = Ok d -> is_zero d = true ->
     Calculator.divide T a b = Raise (ValueError "Division by zero is not allowed") /\
     Calculator.calculate T L a (AStr "/") b =
       Raise (ValueError "Division by zero is not allowed")) /\
  (forall a b d, float_of T b = Ok d -> is_zero d = false ->
     Calculator.divide T a b = (x <- float_of T a ;; Ok (SFdiv 53 1024 x d))) /\
  Calculator.calculate T L (AInt 2) (AStr "/") (AInt 0) =
    Raise (ValueError "Division by zero is not allowed") /\
  (forall body num1 num2 x d,
     has_fields body num1 (AStr "/") num2 ->
     float_of T num1 = Ok x -> float_of T num2 = Ok d -> is_zero d = true ->
     api_calculate T L (Ok (VDict body)) =
       failure "Division by zero is not allowed" 400 /\
     status (api_calculate T L (Ok (VDict body))) = 400 /\
     field "success" (api_calculate T L (Ok (VDict body))) = Some (Atom (ABool false))).
Proof.
  assert (Hdiv : forall a b d, float_of T b = Ok d -> is_zero d = true ->
     Calculator.divide T a b = Raise (ValueError "Division by zero is not allowed")).
  { intros a b d Hb Hz. unfold Calculator.divide. rewrite Hb. simpl.
    rewrite float_eq_int_0, Hz. reflexivity. }
  split; [|split; [|split]].
  - intros a b d Hb Hz. rewrite calculate_slash. split; eauto.
  - intros a b d Hb Hz. unfold Calculator.divide. rewrite Hb. simpl.
    rewrite float_eq_int_0, Hz. reflexivity.
  - reflexivity.
  - intros body num1 num2 x d Hf H1 H2 Hz.
    assert (E : api_calculate T L (Ok (VDict body)) =
                failure "Division by zero is not allowed" 400).
    { rewrite api_calculate_caught, (api_calculate_fields T L _ _ _ _ Hf).
      unfold validated. rewrite H1, H2. cbn [bind].
      rewrite calculate_slash, (Hdiv _ _ _ H2 Hz). reflexivity. }
    rewrite E. repeat split.
Qed.

Lemma division_by_zero_witness :
  Calculator.divide ascii_text (AInt 2) (AInt 0) =
    Raise (ValueError "Division by zero is not allowed") /\
  Calculator.divide ascii_text (AInt 6) (AInt 3) =
    (x <- float_of ascii_text (AInt 6) ;;
     Ok (SFdiv 53 1024 x (S754_finite false 6755399441055744 (-51)))) /\
  api_calculate ascii_text 4300 (request (AInt 2) (AStr "/") (AFloat (S754_zero true))) =
    failure "Division by zero is not allowed" 400.
Proof.
  destruct (division_by_zero ascii_text 4300) as (H1 & H2 & _ & H4).
  split; [|split].
  - apply (H1 (AInt 2) (AInt 0) (S754_zero false)); reflexivity.
  - apply (H2 (AInt 6) (AInt 3)); reflexivity.
  - apply (H4 _ (AInt 2) (AFloat (S754_zero true)) (S754_finite false 4503599627370496 (-51))
              (S754_zero true)); try reflexivity.
    repeat split.
Defined.

(** C4, as stated, fails on an operator that is a JSON array: the empty array
    equals no key of [operations], yet [calculate] raises [TypeError], not the
    invalid-operator [ValueError], and the request is answered with status
    500. *)
Lemma unhashable_operator_is_no_invalid_operator :
  in_mapping (VList []) = false /\
  Calculator.calculate ascii_text 4300 (AInt 2) (VList []) (AInt 3) = Raise TypeError /\
  api_calculate ascii_text 4300 (request (AInt 2) (VList []) (AInt 3)) =
    failure "An unexpected error occurred" 500.
Proof. repeat split. Qed.

(** C4, amended: [calculate] raises the invalid-operator [ValueError], with
    the text of the operator, exactly when the operator is hashable, is not in
    the mapping and has a text, which only an int longer than the limit of the
    interpreter lacks; a request with valid operands and such an operator,
    ["^"] for one, is answered with status 400 and that error.  For an
    operator that is unhashable (a JSON array or object, which is not in the
    mapping either) [calculate] raises [TypeError] and the request is answered
    with status 500; for an int too long to print it raises the [ValueError]
    of [str]. *)
Theorem invalid_operator (T : string -> string) (L : Z) :
  (forall key, in_mapping (Atom key) = has_key (Calculator.operations T) key) /\
  (forall num1 operator num2 text,
     (exists key, hashable operator = Ok key /\
                  in_mapping operator = false /\
                  str L key = Ok text) <->
     Calculator.calculate T L num1 operator num2 =
       Raise (ValueError ("Invalid operator: " ++ text))) /\
  (forall key, (forall z, key <> AInt z) -> exists text, str L key = Ok text) /\
  (forall z, (String.length (str_of_int z) <= 640)%nat ->
     str L (AInt z) = Ok (str_of_int z)) /\
  (forall body num1 operator num2 key text x y,
     has_fields body num1 operator num2 ->
     float_of T num1 = Ok x -> float_of T num2 = Ok y ->
     hashable operator = Ok key ->
     in_mapping operator = false ->
     str L key = Ok text ->
     api_calculate T L (Ok (VDict body)) =
       failure ("Invalid operator: " ++ text) 400) /\
  (forall body num1 operator num2 x y,
     has_fields body num1 operator num2 ->
     float_of T num1 = Ok x -> float_of T num2 = Ok y ->
     hashable operator = Raise TypeError ->
     in_mapping operator = false /\
     Calculator.calculate T L num1 operator num2 = Raise TypeError /\
     api_calculate T L (Ok (VDict body)) = failure "An unexpected error occurred" 500) /\
  (forall num1 num2 key e,
     in_mapping (Atom key) = false -> str L key = Raise e ->
     (exists z, key = AInt z) /\
     Calculator.calculate T L num1 (Atom key) num2 =
       Raise (ValueError (exceeds_limit_to_str L))) /\
  (forall num1 num2 x y,
     float_of T num1 = Ok x -> float_of T num2 = Ok y ->
     api_calculate T L (request num1 (AStr "^") num2) =
       failure "Invalid operator: ^" 400).
Proof.
  assert (Hin : forall key, in_mapping (Atom key) = has_key (Calculator.operations T) key).
  { intros key. apply in_mapping_has_key. }
  assert (Hreq : forall body num1 operator num2 key text x y,
     has_fields body num1 operator num2 ->
     float_of T num1 = Ok x -> float_of T num2 = Ok y ->
     hashable operator = Ok key ->
     in_mapping operator = false ->
     str L key = Ok text ->
     api_calculate T L (Ok (VDict body)) =
       failure ("Invalid operator: " ++ text) 400).
  { intros body num1 operator num2 key text x y Hf H1 H2 Hk Ha Hs.
    rewrite api_calculate_caught, (api_calculate_fields T L _ _ _ _ Hf).
    unfold validated. rewrite H1, H2. cbn [bind].
    destruct operator as [a | l | d]; try discriminate.
    inversion Hk; subst. rewrite Hin in Ha.
    rewrite (calculate_absent T L _ _ _ Ha), Hs. reflexivity. }
  split; [exact Hin|].
  split; [|split; [|split; [|split; [exact Hreq | split; [|split]]]]].
  - intros num1 operator num2 text. split.
    + intros (key & Hk & Ha & Hs).
      destruct operator as [a | l | d]; try discriminate.
      inversion Hk; subst. rewrite Hin in Ha.
      rewrite (calculate_absent T L _ _ _ Ha), Hs. reflexivity.
    + intros H.
      destruct operator as [key | l | d]; try discriminate.
      exists key. split; [reflexivity|]. rewrite Hin.
      destruct (has_key (Calculator.operations T) key) eqn:Ha.
      * exfalso. unfold Calculator.calculate in H. cbn [hashable bind] in H.
        rewrite Ha in H. cbn [negb] in H.
        destruct key as [ | b | z | x | s]; try discriminate.
        cbn [has_key item] in *.
        destruct (lookup s (Calculator.operations T)) as [op|] eqn:Hl; [|discriminate].
        cbn [bind] in H.
        exact (operation_message_not_invalid text
                 (operations_ValueError T s op num1 num2 _ Hl H)).
      * split; [reflexivity|].
        rewrite (calculate_absent T L _ _ _ Ha) in H.
        destruct (str_cases L key) as [[t Ht] | Ht]; rewrite Ht in H |- *;
          cbn [bind] in H; [|discriminate H].
        inversion H; subst; reflexivity.
  - intros key Hk. destruct key as [ | b | z | x | s]; cbn [str]; eauto.
    exfalso. exact (Hk z eq_refl).
  - intros z Hz. cbn [str]. unfold long_to_decimal_string.
    replace (640 <? Z.of_nat (String.length (str_of_int z))) with false
      by (symmetry; apply Z.ltb_ge; lia).
    reflexivity.
  - intros body num1 operator num2 x y Hf H1 H2 Hh.
    assert (Hc : Calculator.calculate T L num1 operator num2 = Raise TypeError)
      by (apply calculate_unhashable; exact Hh).
    split; [destruct operator; [discriminate | reflexivity | reflexivity]|].
    split; [exact Hc|].
    rewrite api_calculate_caught, (api_calculate_fields T L _ _ _ _ Hf).
    unfold validated. rewrite H1, H2. cbn [bind]. rewrite Hc. reflexivity.
  - intros num1 num2 key e Ha Hs. rewrite Hin in Ha.
    rewrite (calculate_absent T L _ _ _ Ha).
    rewrite (str_raises L key e Hs) in Hs. rewrite Hs. split; [|reflexivity].
    destruct key as [ | b | z | x | s]; try discriminate. eauto.
  - intros num1 num2 x y H1 H2.
    apply (Hreq _ num1 (AStr "^") num2 (AStr "^") "^" x y); try assumption;
      repeat split.
Qed.

Lemma invalid_operator_witness :
  Calculator.calculate ascii_text 4300 (AInt 2) (AStr "^") (AInt 3) =
    Raise (ValueError "Invalid operator: ^") /\
  api_calculate ascii_text 4300 (request (AStr "2") (Atom ANone) (AFloat zero)) =
    failure "Invalid operator: None" 400 /\
  api_calculate ascii_text 4300 (request (AStr "2") (VDict []) (AFloat zero)) =
    failure "An unexpected error occurred" 500 /\
  Calculator.calculate ascii_text 4300 (AInt 2) (AInt (10 ^ 4300)) (AInt 3) =
    Raise (ValueError (exceeds_limit_to_str 4300)) /\
  api_calculate ascii_text 4300 (request (AInt 2) (AStr "^") (AInt 3)) =
    failure "Invalid operator: ^" 400.
Proof.
  destruct (invalid_operator ascii_text 4300) as (_ & H1 & _ & _ & H2 & H3 & H4 & H5).
  split; [|split; [|split; [|split]]].
  - apply (H1 (AInt 2) (AStr "^") (AInt 3) "^").
    exists (AStr "^"). repeat split.
  - apply (H2 _ (AStr "2") (Atom ANone) (AFloat zero) ANone "None"
              (S754_finite false 4503599627370496 (-51)) zero);
      try reflexivity. repeat split.
  - apply (H3 _ (AStr "2") (VDict []) (AFloat zero)
              (S754_finite false 4503599627370496 (-51)) zero);
      try reflexivity. repeat split.
  - apply (H4 (AInt 2) (AInt 3) (AInt (10 ^ 4300))
              (ValueError (exceeds_limit_to_str 4300))).
    + reflexivity.
    + vm_compute. reflexivity.
  - apply (H5 (AInt 2) (AInt 3) (S754_finite false 4503599627370496 (-51))
              (S754_finite false 6755399441055744 (-51))); reflexivity.
Defined.

(** C5, as stated, fails on the empty JSON object: it is answered with
    "No data provided", which names no field. *)
Lemma empty_object_is_no_data :
  api_calculate ascii_text 4300 (Ok (VDict [])) = failure "No data provided" 400 /\
  existsb (fun f => String.eqb ("Missing required field: " ++ f) "No data provided")
          required_fields = false.
Proof. split; reflexivity. Qed.

(** C5, amended: a JSON object that is not empty and lacks one of [num1],
    [operator], [num2] is answered with status 400, [success] false and the
    error "Missing required field: " followed by the first of the three that
    it lacks; the empty JSON object is answered with status 400, [success]
    false and the error "No data provided". *)
Theorem missing_field (T : string -> string) (L : Z) (body : list (string * value)) :
  (body <> [] ->
   (exists f, In f required_fields /\ lookup f body = None) ->
   exists f, find (absent body) required_fields = Some f /\
             In f required_fields /\ lookup f body = None /\
             api_calculate T L (Ok (VDict body)) =
               failure ("Missing required field: " ++ f) 400) /\
  api_calculate T L (Ok (VDict [])) = failure "No data provided" 400.
Proof.
  split; [|reflexivity].
  intros Hne (f & Hin & Hf).
  assert (Ht : truthy (VDict body) = true) by (destruct body; [contradiction | reflexivity]).
  unfold api_calculate, api_calculate_try. cbn [bind]. rewrite Ht. cbn [negb].
  unfold required_fields, first_missing, contains, find, absent. cbn [bind].
  destruct (lookup "num1" body) eqn:H1; cbn [negb bind].
  2:{ exists "num1". repeat split; simpl; auto. }
  destruct (lookup "operator" body) eqn:H2; cbn [negb bind].
  2:{ exists "operator". repeat split; simpl; auto. }
  destruct (lookup "num2" body) eqn:H3; cbn [negb bind].
  2:{ exists "num2". repeat split; simpl; auto. }
  exfalso. simpl in Hin.
  destruct Hin as [<- | [<- | [<- | []]]]; congruence.
Qed.

Lemma missing_field_witness :
  exists f, find (absent [("num1", Atom (AInt 1)); ("num2", Atom (AInt 2))])
                 required_fields = Some f /\
            In f required_fields /\
            lookup f [("num1", Atom (AInt 1)); ("num2", Atom (AInt 2))] = None /\
            api_calculate ascii_text 4300
              (Ok (VDict [("num1", Atom (AInt 1)); ("num2", Atom (AInt 2))])) =
              failure ("Missing required field: " ++ f) 400.
Proof.
  apply (proj1 (missing_field ascii_text 4300
                  [("num1", Atom (AInt 1)); ("num2", Atom (AInt 2))])).
  - discriminate.
  - exists "operator". split; [simpl; auto | reflexivity].
Defined.

(** C6: with [num1] the integer 10 ^ 400 and [num2] the text "abc", which
    [float] cannot parse, the request is answered with status 500 and the
    generic error: [float(num1)] raises [OverflowError] first, which the
    validation does not catch. *)
Theorem overflow_before_invalid_number (T : string -> string) (L : Z) :
  keeps_ascii T ->
  float_of T (AStr "abc") = Raise (ValueError (could_not_convert "abc")) /\
  float_of T (AInt (10 ^ 400)) = Raise OverflowError /\
  api_calculate T L (request (AInt (10 ^ 400)) (AStr "+") (AStr "abc")) =
    failure "An unexpected error occurred" 500.
Proof.
  intros HT. split; [|split].
  - cbn [float_of]. rewrite (float_of_str_ascii T "abc" HT eq_refl). reflexivity.
  - vm_compute. reflexivity.
  - apply (validation_overflow T L _ (AInt (10 ^ 400)) (AStr "+") (AStr "abc")).
    + repeat split.
    + vm_compute. reflexivity.
Qed.

Lemma overflow_before_invalid_number_witness :
  api_calculate ascii_text 4300 (request (AInt (10 ^ 400)) (AStr "+") (AStr "abc")) =
    failure "An unexpected error occurred" 500.
Proof.
  apply (overflow_before_invalid_number ascii_text 4300).
  intros s _. reflexivity.
Defined.

(** C7: whatever [request.get_json()] returns or raises, the response of
    [api_calculate] is a JSON object with a boolean [success], with a
    [result] (a number) exactly when [success] is true and with an [error]
    (a text) exactly when [success] is false. *)
Theorem response_shape (T : string -> string) (L : Z) (get_json : result value) :
  CalculationResult (api_calculate T L get_json).
Proof. apply answered_shape, api_calculate_answered. Qed.

(** C8: the health check answers 200, with [status] "healthy" and a
    [message] that is a text, and it reads nothing of the request. *)
Theorem health_check_is_healthy :
  status health_check = 200 /\
  field "status" health_check = Some (Atom (AStr "healthy")) /\
  exists msg, field "message" health_check = Some (Atom (AStr msg)).
Proof. repeat split. eexists; reflexivity. Qed.

(** C9: [calculate(2, "+", 3)] is the float 5; each operation coerces both
    operands with [float] and applies its arithmetic operator to the
    two floats ([divide] once the divisor is known not to be zero), so
    [calculate] under ["+"] is [float(num1) + float(num2)] for every pair of
    operands. *)
Theorem calculate_applies_the_operator (T : string -> string) (L : Z) :
  (exists x q, Calculator.calculate T L (AInt 2) (AStr "+") (AInt 3) = Ok x /\
               float_eq_int x 5 = true /\
               Q_of_float x = Some q /\ (q == 5)%Q) /\
  (forall a b, Calculator.add T a b =
               (x <- float_of T a ;; y <- float_of T b ;; Ok (SFadd 53 1024 x y))) /\
  (forall a b, Calculator.subtract T a b =
               (x <- float_of T a ;; y <- float_of T b ;; Ok (SFsub 53 1024 x y))) /\
  (forall a b, Calculator.multiply T a b =
               (x <- float_of T a ;; y <- float_of T b ;; Ok (SFmul 53 1024 x y))) /\
  (forall a b, Calculator.divide T a b =
               (d <- float_of T b ;;
                if is_zero d then Raise (ValueError "Division by zero is not allowed")
                else x <- float_of T a ;; Ok (SFdiv 53 1024 x d))) /\
  (forall num1 num2, Calculator.calculate T L num1 (AStr "+") num2 =
               (x <- float_of T num1 ;; y <- float_of T num2 ;; Ok (SFadd 53 1024 x y))).
Proof.
  repeat split; try reflexivity.
  - do 2 eexists. repeat split; reflexivity.
  - intros a b. unfold Calculator.divide.
    destruct (float_of T b) as [d|e]; simpl; [|reflexivity].
    rewrite float_eq_int_0. reflexivity.
Qed.

(** C10: the validation accepts every operand [float] accepts, the texts
    "nan", "inf" and "-inf" among them, and such a request is never answered
    with "Invalid number format"; with [num1] "nan" it is answered with
    status 400 and the text of the [ValueError] of [int], with [num1] "inf"
    or "-inf" with status 500 and the generic error. *)
Theorem special_floats_pass_validation (T : string -> string) (L : Z) :
  keeps_ascii T ->
  float_of T (AStr "nan") = Ok S754_nan /\
  float_of T (AStr "inf") = Ok (S754_infinity false) /\
  float_of T (AStr "-inf") = Ok (S754_infinity true) /\
  (forall body num1 operator num2 x y code,
     has_fields body num1 operator num2 ->
     float_of T num1 = Ok x -> float_of T num2 = Ok y ->
     api_calculate T L (Ok (VDict body)) <> failure "Invalid number format" code) /\
  api_calculate T L (request (AStr "nan") (AStr "+") (AStr "1")) =
    failure "cannot convert float NaN to integer" 400 /\
  api_calculate T L (request (AStr "inf") (AStr "+") (AStr "1")) =
    failure "An unexpected error occurred" 500 /\
  api_calculate T L (request (AStr "-inf") (AStr "+") (AStr "1")) =
    failure "An unexpected error occurred" 500.
Proof.
  intros HT.
  assert (E : forall s, is_ascii s = true ->
            api_calculate T L (request (AStr s) (AStr "+") (AStr "1")) =
            api_calculate ascii_text L (request (AStr s) (AStr "+") (AStr "1"))).
  { intros s Hs.
    apply (api_calculate_plain T L HT _ (AStr s) (AStr "+") (AStr "1"));
      [repeat split | exact Hs | reflexivity]. }
  repeat split.
  - apply (float_of_plain T HT (AStr "nan")). reflexivity.
  - apply (float_of_plain T HT (AStr "inf")). reflexivity.
  - apply (float_of_plain T HT (AStr "-inf")). reflexivity.
  - intros body num1 operator num2 x y code. apply accepted_operands.
  - rewrite E by reflexivity. reflexivity.
  - rewrite E by reflexivity. reflexivity.
  - rewrite E by reflexivity. reflexivity.
Qed.

Lemma special_floats_pass_validation_witness :
  api_calculate ascii_text 4300 (request (AStr "nan") (AStr "+") (AStr "1")) =
    failure "cannot convert float NaN to integer" 400 /\
  api_calculate ascii_text 4300 (request (AStr "inf") (AStr "+") (AStr "1")) =
    failure "An unexpected error occurred" 500 /\
  api_calculate ascii_text 4300 (request (AFloat S754_nan) (AStr "/") (AStr " 1e5 ")) <>
    failure "Invalid number format" 400.
Proof.
  destruct (special_floats_pass_validation ascii_text 4300) as (_ & _ & _ & H & Hn & Hi & _).
  - intros s _. reflexivity.
  - split; [exact Hn | split; [exact Hi|]].
    apply (H _ (AFloat S754_nan) (AStr "/") (AStr " 1e5 ")
             S754_nan (S754_finite false 6871947673600000 (-36)));
      [repeat split | reflexivity | reflexivity].
Defined.

(** ** Further facts about the calculator and the handler *)

Lemma fadd_comm (x y : float) : fadd x y = fadd y x.
Proof.
  destruct x as [s|s| |s m e], y as [t|t| |t n f]; try reflexivity;
    try (destruct s, t; reflexivity).
  unfold fadd, SFadd. rewrite (Z.min_comm f e), Z.add_comm. reflexivity.
Qed.

Lemma fmul_comm (x y : float) : fmul x y = fmul y x.
Proof.
  destruct x as [s|s| |s m e], y as [t|t| |t n f]; try reflexivity;
    try (unfold fmul, SFmul; rewrite (xorb_comm t s); reflexivity).
  unfold fmul, SFmul.
  rewrite (xorb_comm t s), (Pos.mul_comm n m), (Z.add_comm f e). reflexivity.
Qed.

Lemma fsub_self (x : float) :
  fsub x x = if is_finite x then zero else nan.
Proof.
  destruct x as [s|s| |s m e]; try reflexivity; try (destruct s; reflexivity).
  unfold fsub, SFsub. rewrite Z.sub_diag. reflexivity.
Qed.

Section OperatorKeys.

Variable T : string -> string.

Lemma has_key_operations (key : atom) :
  has_key (Calculator.operations T) key = true <->
  exists s, key = AStr s /\ In s operator_keys.
Proof.
  split.
  - destruct key as [ | b | z | x | s]; try discriminate.
    unfold has_key, Calculator.operations, operator_keys. cbn [lookup].
    intros H. exists s. split; [reflexivity|].
    repeat match type of H with
    | context [String.eqb ?k s] =>
        destruct (String.eqb_spec k s) as [E | _]; [rewrite <- E; simpl; tauto|]
    end. discriminate.
  - intros (s & -> & Hs). unfold operator_keys in Hs. simpl in Hs.
    destruct Hs as [<- | [<- | [<- | [<- | [<- | [<- | []]]]]]]; reflexivity.
Qed.

End OperatorKeys.

Section ByStatus.

Variable T : string -> string.
Variable L : Z.

Lemma caught_by_status (r : result response) :
  answers_by_status r -> answered_by_status (caught r).
Proof.
  destruct r as [resp | e]; simpl; [trivial|].
  intros _. destruct e; [right; left; eexists; reflexivity | right; right; reflexivity ..].
Qed.

Ltac status_step :=
  match goal with
  | |- answers_by_status (Ok _) =>
      first [ left; eexists; reflexivity
            | right; left; eexists; reflexivity ]
  | |- answers_by_status (Raise _) => exact I
  | |- answers_by_status (bind (Ok _) _) => cbn [bind]
  | |- answers_by_status (bind (if ?c then _ else _) _) => destruct c
  | |- answers_by_status (bind (bind ?r _) _) => destruct r; cbn [bind]
  | |- answers_by_status (bind ?r _) => destruct r; cbn [bind]
  | |- answers_by_status (if ?c then _ else _) => destruct c
  | |- answers_by_status (match ?x with _ => _ end) => destruct x; cbn [bind]
  end.

Lemma api_calculate_by_status (get_json : result value) :
  answered_by_status (api_calculate T L get_json).
Proof.
  rewrite api_calculate_caught. apply caught_by_status.
  unfold api_calculate_try. repeat status_step.
Qed.

Lemma first_missing_In (data : value) (fields : list string) (f : string) :
  first_missing data fields = Ok (Some f) -> In f fields.
Proof.
  induction fields as [|g fields IH]; simpl; [discriminate|].
  destruct (contains data g) as [present|e]; cbn [bind]; [|discriminate].
  destruct present; cbn [negb].
  - intros H. right. exact (IH H).
  - intros H. inversion H. left. reflexivity.
Qed.

(** Once the operands are coerced, a calculation returns, or raises the
    invalid-operator or the division-by-zero [ValueError], or [TypeError] for
    an unhashable operator, or the [ValueError] of [str] for an operator that
    is an int too long to print. *)
Lemma calculate_validated (num1 operator num2 : value) x y :
  float_of T num1 = Ok x -> float_of T num2 = Ok y ->
  (exists r, Calculator.calculate T L num1 operator num2 = Ok r) \/
  (exists text, Calculator.calculate T L num1 operator num2 =
                Raise (ValueError ("Invalid operator: " ++ text))) \/
  Calculator.calculate T L num1 operator num2 =
    Raise (ValueError "Division by zero is not allowed") \/
  Calculator.calculate T L num1 operator num2 = Raise TypeError \/
  (exists z, operator = Atom (AInt z) /\
             str L (AInt z) = Raise (ValueError (exceeds_limit_to_str L)) /\
             Calculator.calculate T L num1 operator num2 =
               Raise (ValueError (exceeds_limit_to_str L))).
Proof.
  intros H1 H2. unfold Calculator.calculate.
  destruct operator as [key | l | d]; cbn [hashable bind]; auto.
  destruct (has_key (Calculator.operations T) key) eqn:Hk; cbn [negb bind].
  - destruct key as [ | b | z | f | k]; try discriminate Hk. cbn [has_key item] in *.
    destruct (lookup k (Calculator.operations T)) as [op|] eqn:Hl; [|discriminate].
    cbn [bind].
    destruct (operations_validated T k op num1 num2 x y H1 H2 Hl) as [[r ->] | ->];
      eauto.
  - destruct (str_cases L key) as [[text Hs] | Hs]; rewrite Hs; cbn [bind].
    + right. left. exists text. reflexivity.
    + do 4 right. destruct key as [ | b | z | f | k]; try discriminate Hs.
      exists z. auto.
Qed.

(** The errors of [api_calculate] for any value as the body. *)
Lemma error_catalogue_aux (data : value) (msg : string) (code : Z) :
  api_calculate T L (Ok data) = failure msg code ->
  (code = 400 /\ known_error msg) \/
  (code = 500 /\ msg = "An unexpected error occurred") \/
  (code = 400 /\ msg = exceeds_limit_to_str L /\
   exists z, getitem data "operator" = Ok (Atom (AInt z)) /\
             str L (AInt z) = Raise (ValueError (exceeds_limit_to_str L))).
Proof.
  unfold api_calculate, api_calculate_try, known_error. cbn [bind].
  destruct (negb (truthy data)).
  { intros H; inversion H; subst. left. auto. }
  destruct (first_missing data required_fields) as [[f|]|e] eqn:Hm; cbn [bind].
  { intros H; inversion H; subst. left. split; [reflexivity|].
    right. left. exists f. split; [exact (first_missing_In _ _ _ Hm) | reflexivity]. }
  2:{ rewrite (first_missing_error _ _ _ Hm). intros H; inversion H; auto. }
  destruct (getitem data "num1") as [num1|e] eqn:G1; cbn [bind].
  2:{ destruct (getitem_error _ _ _ G1) as [-> | ->]; intros H; inversion H; auto. }
  destruct (getitem data "operator") as [operator|e] eqn:G2; cbn [bind].
  2:{ destruct (getitem_error _ _ _ G2) as [-> | ->]; intros H; inversion H; auto. }
  destruct (getitem data "num2") as [num2|e] eqn:G3; cbn [bind].
  2:{ destruct (getitem_error _ _ _ G3) as [-> | ->]; intros H; inversion H; auto. }
  destruct (float_of T num1) as [x|e] eqn:H1; cbn [bind].
  2:{ destruct e; intros H; inversion H; subst; auto 10. }
  destruct (float_of T num2) as [y|e] eqn:H2; cbn [bind].
  2:{ destruct e; intros H; inversion H; subst; auto 10. }
  destruct (calculate_validated num1 operator num2 x y H1 H2)
    as [[r ->] | [[text ->] | [-> | [-> | (z & -> & Hs & ->)]]]]; cbn [bind].
  - destruct r as [sg|sg| |sg m e]; cbn [int_of_float bind];
      try (intros H; inversion H; subst; auto 10; fail);
      destruct (float_eq_int _ _); cbn [bind]; discriminate.
  - intros H; inversion H; subst. left. split; [reflexivity|].
    do 3 right. left. exists text. reflexivity.
  - intros H; inversion H; subst. auto 10.
  - intros H; inversion H; subst. auto.
  - intros H; inversion H; subst. right. right. eauto.
Qed.

End ByStatus.

Lemma falsy_bodies (data : value) :
  truthy data = false <->
  data = Atom ANone \/ data = Atom (ABool false) \/ data = Atom (AInt 0) \/
  (exists s, data = Atom (AFloat (S754_zero s))) \/
  data = Atom (AStr EmptyString) \/ data = VList [] \/ data = VDict [].
Proof.
  split.
  - destruct data as [[ | b | z | x | s] | l | d]; simpl; intros H.
    + auto.
    + destruct b; [discriminate | auto].
    + apply negb_false_iff, Z.eqb_eq in H. subst. auto.
    + apply negb_false_iff in H. rewrite float_eq_int_0 in H.
      destruct x; try discriminate. do 3 right. left. eauto.
    + apply negb_false_iff, String.eqb_eq in H. subst. auto 10.
    + destruct l; [auto 10 | discriminate].
    + destruct d; [auto 10 | discriminate].
  - intros [-> | [-> | [-> | [[s ->] | [-> | [-> | ->]]]]]]; reflexivity.
Qed.

Lemma parsed_getitem (L : Z) (data v : value) (k : string) :
  parsed L data = true -> getitem data k = Ok v -> parsed L v = true.
Proof.
  destruct data as [a | l | d]; try discriminate. cbn [parsed getitem].
  induction d as [|[k' v'] d IH]; cbn [forallb lookup snd]; [discriminate|].
  intros Hp. apply andb_prop in Hp. destruct Hp as [Hv Hd].
  destruct (String.eqb k' k).
  - intros H. inversion H; subst. exact Hv.
  - exact (IH Hd).
Qed.

(** An int that [json.loads] read is printed, under a limit the interpreter
    accepts. *)
Lemma loads_int_str (L z : Z) :
  valid_limit L -> loads_int L z = true ->
  str L (AInt z) = Ok (str_of_int z).
Proof.
  intros HL. unfold loads_int. cbn [str]. unfold long_to_decimal_string.
  intros H. apply negb_true_iff in H.
  match goal with
  | |- (if ?c then _ else _) = _ => replace c with false; [reflexivity|]
  end.
  symmetry. revert H.
  destruct z as [|p|p]; cbn [Z.abs Z.ltb Z.compare].
  - intros _. reflexivity.
  - intros Hb. exact Hb.
  - change (str_of_int (Zneg p)) with (String "-" (str_of_int (Zpos p))).
    cbn [String.length]. rewrite Nat2Z.inj_succ.
    set (n := Z.of_nat (String.length (str_of_int (Zpos p)))).
    destruct HL as [-> | HL]; [intros _; apply andb_false_iff; left;
                               apply andb_false_iff; right; reflexivity|].
    destruct (Z.ltb_spec 640 n), (Z.ltb_spec 0 L), (Z.ltb_spec L n),
      (Z.ltb_spec 640 (Z.succ n)), (Z.ltb_spec L (Z.succ n - 1));
      cbn [andb]; intros Hb; try reflexivity; try discriminate Hb; lia.
Qed.

(** X1: for a JSON object with the three fields, the answer is
    "Invalid number format" with status 400 exactly when [float(num1)] raises a
    [ValueError] or a [TypeError], or returns and [float(num2)] raises one;
    the operator plays no part in it. *)
Theorem invalid_number_exactly (T : string -> string) (L : Z) body num1 operator num2 :
  has_fields body num1 operator num2 ->
  (api_calculate T L (Ok (VDict body)) = failure "Invalid number format" 400 <->
   exists e, parse_error e = true /\
     (float_of T num1 = Raise e \/
      ((exists x, float_of T num1 = Ok x) /\ float_of T num2 = Raise e))).
Proof.
  intros Hf. split.
  - intros H.
    destruct (float_of T num1) as [x|e1] eqn:H1.
    + destruct (float_of T num2) as [y|e2] eqn:H2.
      * exfalso. exact (accepted_operands T L _ _ _ _ x y 400 Hf H1 H2 H).
      * exists e2. split; [|right; split; [eauto | reflexivity]].
        destruct e2; try reflexivity; exfalso;
          rewrite api_calculate_caught, (api_calculate_fields T L _ _ _ _ Hf) in H;
          unfold validated in H; rewrite H1, H2 in H; discriminate.
    + exists e1. split; [|left; reflexivity].
      destruct e1; try reflexivity; exfalso;
        rewrite api_calculate_caught, (api_calculate_fields T L _ _ _ _ Hf) in H;
        unfold validated in H; rewrite H1 in H; discriminate.
  - intros (e & He & H). exact (validation_rejects T L _ _ _ _ e Hf He H).
Qed.

Lemma invalid_number_exactly_witness :
  api_calculate ascii_text 4300
    (Ok (VDict [("num1", Atom (AStr "abc")); ("operator", VList []);
                ("num2", Atom (AInt 1))])) =
  failure "Invalid number format" 400.
Proof.
  apply (invalid_number_exactly ascii_text 4300 _ (Atom (AStr "abc")) (VList []) (Atom (AInt 1))).
  - repeat split.
  - exists (ValueError (could_not_convert "abc")). split; [reflexivity|].
    left. reflexivity.
Defined.

(** X2: whatever [request.get_json()] returns or raises, the status of the
    answer is 200, 400 or 500; it is 200 exactly when [success] is true; and
    an answer with status 500 carries the generic text and nothing of the
    exception. *)
Theorem status_and_success (T : string -> string) (L : Z) (get_json : result value) :
  let r := api_calculate T L get_json in
  (status r = 200 \/ status r = 400 \/ status r = 500) /\
  (status r = 200 <-> field "success" r = Some (Atom (ABool true))) /\
  (status r <> 200 <-> field "success" r = Some (Atom (ABool false))) /\
  (status r = 500 -> r = failure "An unexpected error occurred" 500).
Proof.
  intros r. subst r.
  destruct (api_calculate_by_status T L get_json) as [[a ->] | [[msg ->] | ->]];
    unfold field; simpl; repeat split; auto; try discriminate; try lia;
    intros H; try discriminate H; try (exfalso; apply H; reflexivity).
Qed.

(** X3: an error answer to a body has status 400 and one of six texts (no
    data, a missing field among the three, an invalid number, an invalid
    operator, a division by zero, a NaN that [int] refuses), or status 500 and
    the generic text, or status 400 and the text of [str] for an operator that
    is an int too long to print; the last is excluded for a body that
    [request.get_json()] returned, under a limit the interpreter accepts. *)
Theorem error_catalogue (T : string -> string) (L : Z) (data : value)
    (msg : string) (code : Z) :
  api_calculate T L (Ok data) = failure msg code ->
  ((code = 400 /\ known_error msg) \/
   (code = 500 /\ msg = "An unexpected error occurred") \/
   (code = 400 /\ msg = exceeds_limit_to_str L)) /\
  (valid_limit L -> parsed L data = true ->
   (code = 400 /\ known_error msg) \/
   (code = 500 /\ msg = "An unexpected error occurred")).
Proof.
  intros H.
  destruct (error_catalogue_aux T L data msg code H)
    as [H4 | [H5 | (Hc & Hm & z & Hg & Hs)]]; [split; auto | split; auto |].
  split; [auto|].
  intros HL Hp. exfalso. pose proof (parsed_getitem L data _ _ Hp Hg) as Hz.
  cbn [parsed] in Hz. rewrite (loads_int_str L z HL Hz) in Hs. discriminate Hs.
Qed.

Lemma error_catalogue_witness :
  known_error "Division by zero is not allowed".
Proof.
  destruct (proj2 (error_catalogue ascii_text 4300
                     (VDict [("num1", Atom (AInt 1)); ("operator", Atom (AStr "/"));
                             ("num2", Atom (AInt 0))])
                     "Division by zero is not allowed" 400 eq_refl)
                  (or_intror (proj1 (Z.leb_le 640 4300) eq_refl)) eq_refl)
    as [[_ H] | [H _]]; [exact H | discriminate H].
Defined.

(** X4: a body is answered with "No data provided" exactly when it is falsy,
    that is when it is null, false, 0, a float zero, the empty text, the empty
    array or the empty object. *)
Theorem no_data_exactly (T : string -> string) (L : Z) (data : value) :
  (api_calculate T L (Ok data) = failure "No data provided" 400 <->
   truthy data = false) /\
  (truthy data = false <->
   data = Atom ANone \/ data = Atom (ABool false) \/ data = Atom (AInt 0) \/
   (exists s, data = Atom (AFloat (S754_zero s))) \/
   data = Atom (AStr EmptyString) \/ data = VList [] \/ data = VDict []).
Proof.
  split; [|apply falsy_bodies].
  split.
  - destruct (truthy data) eqn:Ht; [|reflexivity]. intros H. exfalso. revert H.
    unfold api_calculate, api_calculate_try. cbn [bind]. rewrite Ht. cbn [negb].
    destruct (first_missing data required_fields) as [[f|]|e] eqn:Hm; cbn [bind];
      [discriminate | | rewrite (first_missing_error _ _ _ Hm); discriminate].
    destruct (getitem data "num1") as [num1|e] eqn:G1; cbn [bind];
      [|destruct (getitem_error _ _ _ G1) as [-> | ->]; discriminate].
    destruct (getitem data "operator") as [operator|e] eqn:G2; cbn [bind];
      [|destruct (getitem_error _ _ _ G2) as [-> | ->]; discriminate].
    destruct (getitem data "num2") as [num2|e] eqn:G3; cbn [bind];
      [|destruct (getitem_error _ _ _ G3) as [-> | ->]; discriminate].
    destruct (float_of T num1) as [x|e] eqn:H1; cbn [bind];
      [|destruct e; discriminate].
    destruct (float_of T num2) as [y|e] eqn:H2; cbn [bind];
      [|destruct e; discriminate].
    destruct (calculate_validated T L num1 operator num2 x y H1 H2)
      as [[r ->] | [[text ->] | [-> | [-> | (z & _ & _ & ->)]]]]; cbn [bind];
      try discriminate.
    destruct r as [sg|sg| |sg m e]; cbn [int_of_float bind]; try discriminate;
      destruct (float_eq_int _ _); discriminate.
  - intros Ht. unfold api_calculate, api_calculate_try. cbn [bind].
    rewrite Ht. reflexivity.
Qed.

(** X5: an answer with [success] true is only given to a JSON object that
    holds the three fields, whose operands [float] accepts and whose operator
    is one of the six texts that are keys of [operations]. *)
Theorem success_requires (T : string -> string) (L : Z) (get_json : result value) (a : atom) :
  api_calculate T L get_json = success a ->
  exists body num1 operator num2 x y s,
    get_json = Ok (VDict body) /\
    has_fields body num1 operator num2 /\
    float_of T num1 = Ok x /\ float_of T num2 = Ok y /\
    operator = Atom (AStr s) /\ In s operator_keys.
Proof.
  intros H.
  destruct (success_is_normalised T L get_json a H)
    as (data & num1 & operator & num2 & r & i & -> & G1 & G2 & G3 & Hc & _).
  destruct data as [at_ | l | body]; try discriminate.
  destruct (calculate_Ok T L _ _ _ _ Hc) as (x & y & Hx & Hy).
  assert (Hk : exists s, operator = Atom (AStr s) /\ In s operator_keys).
  { unfold Calculator.calculate in Hc.
    destruct operator as [key | l | d]; try discriminate. cbn [hashable bind] in Hc.
    destruct (has_key (Calculator.operations T) key) eqn:Hk;
      [|cbn [negb] in Hc;
        destruct (str_cases L key) as [[text Ht] | Ht]; rewrite Ht in Hc;
        discriminate].
    apply (has_key_operations T) in Hk. destruct Hk as (s & -> & Hs). eauto. }
  destruct Hk as (s & Hs & Hin).
  exists body, num1, operator, num2, x, y, s.
  cbn [getitem] in G1, G2, G3.
  repeat split; try assumption.
  - destruct (lookup "num1" body); inversion G1; reflexivity.
  - destruct (lookup "operator" body); inversion G2; reflexivity.
  - destruct (lookup "num2" body); inversion G3; reflexivity.
Qed.

Lemma success_requires_witness :
  exists body num1 operator num2 x y s,
    request (Atom (AInt 2)) (Atom (AStr "*")) (Atom (AStr "2.5")) = Ok (VDict body) /\
    has_fields body num1 operator num2 /\
    float_of ascii_text num1 = Ok x /\ float_of ascii_text num2 = Ok y /\
    operator = Atom (AStr s) /\ In s operator_keys.
Proof.
  apply (success_requires ascii_text 4300 _ (AInt 5)). vm_compute. reflexivity.
Defined.

(** X6: the answer to a JSON object depends on the values of its three
    fields only: further fields and the order of the fields change
    nothing. *)
Theorem only_three_fields_matter (T : string -> string) (L : Z) body num1 operator num2 :
  has_fields body num1 operator num2 ->
  api_calculate T L (Ok (VDict body)) = api_calculate T L (request num1 operator num2).
Proof.
  intros Hf. rewrite !api_calculate_caught.
  rewrite (api_calculate_fields T L _ _ _ _ Hf).
  unfold request.
  rewrite (api_calculate_fields T L _ num1 operator num2); [reflexivity|].
  repeat split.
Qed.

Lemma only_three_fields_matter_witness :
  api_calculate ascii_text 4300
    (Ok (VDict [("id", Atom (AInt 7)); ("num2", Atom (AInt 3));
                ("operator", Atom (AStr "-")); ("num1", Atom (AStr "10"))])) =
  api_calculate ascii_text 4300 (request (Atom (AStr "10")) (Atom (AStr "-")) (Atom (AInt 3))).
Proof.
  apply (only_three_fields_matter ascii_text 4300). repeat split.
Defined.

Lemma exchanged_request (T : string -> string) (L : Z) (a operator b : value) x y :
  float_of T a = Ok x -> float_of T b = Ok y ->
  Calculator.calculate T L a operator b = Calculator.calculate T L b operator a ->
  api_calculate T L (request a operator b) = api_calculate T L (request b operator a).
Proof.
  intros Ha Hb Hc. unfold request. rewrite !api_calculate_caught.
  rewrite (api_calculate_fields T L _ a operator b) by (repeat split).
  rewrite (api_calculate_fields T L _ b operator a) by (repeat split).
  unfold validated. rewrite Ha, Hb. cbn [bind]. rewrite Hc. reflexivity.
Qed.

(** X7: addition and multiplication commute: for operands [float] accepts,
    [calculate] under ["+"] and ["*"] returns the same float when the operands
    are exchanged, and so do the answers to the two requests. *)
Theorem addition_multiplication_commute (T : string -> string) (L : Z) (a b : value) x y :
  float_of T a = Ok x -> float_of T b = Ok y ->
  Calculator.calculate T L a (AStr "+") b = Calculator.calculate T L b (AStr "+") a /\
  Calculator.calculate T L a (AStr "*") b = Calculator.calculate T L b (AStr "*") a /\
  api_calculate T L (request a (AStr "+") b) = api_calculate T L (request b (AStr "+") a) /\
  api_calculate T L (request a (AStr "*") b) = api_calculate T L (request b (AStr "*") a).
Proof.
  intros Ha Hb.
  assert (Hp : Calculator.calculate T L a (AStr "+") b =
               Calculator.calculate T L b (AStr "+") a).
  { rewrite !calculate_plus. unfold Calculator.add. rewrite Ha, Hb. cbn [bind].
    rewrite fadd_comm. reflexivity. }
  assert (Hm : Calculator.calculate T L a (AStr "*") b =
               Calculator.calculate T L b (AStr "*") a).
  { rewrite !calculate_star. unfold Calculator.multiply. rewrite Ha, Hb. cbn [bind].
    rewrite fmul_comm. reflexivity. }
  repeat split; try assumption; eapply exchanged_request; eassumption.
Qed.

Lemma addition_multiplication_commute_witness :
  api_calculate ascii_text 4300 (request (Atom (AStr "0.1")) (AStr "+") (Atom (AInt 7))) =
  api_calculate ascii_text 4300 (request (Atom (AInt 7)) (AStr "+") (Atom (AStr "0.1"))).
Proof.
  apply (addition_multiplication_commute ascii_text 4300 (Atom (AStr "0.1")) (Atom (AInt 7))
           (S754_finite false 7205759403792794 (-56))
           (S754_finite false 7881299347898368 (-50)));
    vm_compute; reflexivity.
Defined.

(** X8: for a JSON object with the three fields whose calculation returns
    NaN, the answer has status 400 and the text of the [ValueError] of [int];
    when it returns an infinity, status 500 and the generic text; when it
    returns a zero of either sign, the [int] 0. *)
Theorem special_results (T : string -> string) (L : Z) body num1 operator num2 r :
  has_fields body num1 operator num2 ->
  Calculator.calculate T L num1 operator num2 = Ok r ->
  (r = S754_nan ->
   api_calculate T L (Ok (VDict body)) =
     failure "cannot convert float NaN to integer" 400) /\
  ((exists s, r = S754_infinity s) ->
   api_calculate T L (Ok (VDict body)) = failure "An unexpected error occurred" 500) /\
  ((exists s, r = S754_zero s) ->
   api_calculate T L (Ok (VDict body)) = success (AInt 0)).
Proof.
  intros Hf Hc.
  destruct (calculate_Ok T L _ _ _ _ Hc) as (x & y & Hx & Hy).
  rewrite api_calculate_caught, (api_calculate_fields T L _ _ _ _ Hf).
  unfold validated. rewrite Hx, Hy. cbn [bind]. rewrite Hc. cbn [bind].
  repeat split.
  - intros ->. reflexivity.
  - intros [s ->]. reflexivity.
  - intros [s ->]. reflexivity.
Qed.

Lemma special_results_witness :
  api_calculate ascii_text 4300 (request (Atom (AStr "inf")) (AStr "-") (Atom (AStr "inf"))) =
    failure "cannot convert float NaN to integer" 400 /\
  api_calculate ascii_text 4300 (request (Atom (AStr "1e308")) (AStr "*") (Atom (AInt 10))) =
    failure "An unexpected error occurred" 500 /\
  api_calculate ascii_text 4300 (request (Atom (AInt 0)) (AStr "*") (Atom (AInt (-1)))) =
    success (AInt 0).
Proof.
  split; [|split].
  - refine (proj1 (special_results ascii_text 4300
                     [("num1", Atom (AStr "inf")); ("operator", Atom (AStr "-"));
                      ("num2", Atom (AStr "inf"))]
                     (Atom (AStr "inf")) (AStr "-") (Atom (AStr "inf")) S754_nan
                     _ _) eq_refl).
    + repeat split.
    + vm_compute. reflexivity.
  - refine (proj1 (proj2 (special_results ascii_text 4300
                     [("num1", Atom (AStr "1e308")); ("operator", Atom (AStr "*"));
                      ("num2", Atom (AInt 10))]
                     (Atom (AStr "1e308")) (AStr "*") (Atom (AInt 10))
                     (S754_infinity false) _ _)) _).
    + repeat split.
    + vm_compute. reflexivity.
    + eexists; reflexivity.
  - refine (proj2 (proj2 (special_results ascii_text 4300
                     [("num1", Atom (AInt 0)); ("operator", Atom (AStr "*"));
                      ("num2", Atom (AInt (-1)))]
                     (Atom (AInt 0)) (AStr "*") (Atom (AInt (-1)))
                     (S754_zero true) _ _)) _).
    + repeat split.
    + vm_compute. reflexivity.
    + eexists; reflexivity.
Defined.

(** X9: an operand minus itself: when [float(a)] is finite,
    [calculate(a, "-", a)] is the float zero and the request is answered with
    the [int] 0; when it is an infinity or NaN, the difference is NaN. *)
Theorem subtract_self (T : string -> string) (L : Z) (a : value) (x : float) :
  float_of T a = Ok x ->
  Calculator.calculate T L a (AStr "-") a =
    Ok (if is_finite x then S754_zero false else S754_nan) /\
  (is_finite x = true ->
   api_calculate T L (request a (AStr "-") a) = success (AInt 0)).
Proof.
  intros Ha.
  assert (Hc : Calculator.calculate T L a (AStr "-") a =
               Ok (if is_finite x then S754_zero false else S754_nan)).
  { rewrite calculate_minus. unfold Calculator.subtract. rewrite Ha. cbn [bind].
    rewrite fsub_self. reflexivity. }
  split; [exact Hc|]. intros Hx. rewrite Hx in Hc.
  unfold request. rewrite api_calculate_caught.
  rewrite (api_calculate_fields T L _ a (AStr "-") a) by (repeat split).
  unfold validated. rewrite Ha. cbn [bind]. rewrite Hc. reflexivity.
Qed.

Lemma subtract_self_witness :
  api_calculate ascii_text 4300 (request (Atom (AStr "0.1")) (AStr "-") (Atom (AStr "0.1"))) =
  success (AInt 0).
Proof.
  apply (proj2 (subtract_self ascii_text 4300 (Atom (AStr "0.1"))
                  (S754_finite false 7205759403792794 (-56))
                  ltac:(vm_compute; reflexivity))).
  reflexivity.
Defined.

(** X10: the operators [calculate] knows are exactly six texts: ["+"], ["-"],
    ["*"], ["/"] and the two texts of the source that are not ASCII, which
    select [multiply] and [divide]; every other hashable operator, such as
    ["x"], ["**"] or [" +"], is refused with a [ValueError]: the
    invalid-operator error with the text of the operator, or the error of
    [str] when the operator is an int too long to print. *)
Theorem operators_are_six_keys (T : string -> string) (L : Z) :
  (forall key, has_key (Calculator.operations T) key = true <->
               exists s, key = AStr s /\ In s operator_keys) /\
  (forall a b,
     Calculator.calculate T L a (AStr Calculator.alt_multiply_key) b =
       Calculator.calculate T L a (AStr "*") b /\
     Calculator.calculate T L a (AStr Calculator.alt_divide_key) b =
       Calculator.calculate T L a (AStr "/") b) /\
  (forall a b key,
     ~ (exists s, key = AStr s /\ In s operator_keys) ->
     (exists msg, Calculator.calculate T L a (Atom key) b = Raise (ValueError msg)) /\
     (forall text, str L key = Ok text ->
        Calculator.calculate T L a (Atom key) b =
          Raise (ValueError ("Invalid operator: " ++ text))) /\
     (forall e, str L key = Raise e ->
        (exists z, key = AInt z) /\
        Calculator.calculate T L a (Atom key) b =
          Raise (ValueError (exceeds_limit_to_str L)))) /\
  (forall s, str L (AStr s) = Ok s).
Proof.
  split; [apply has_key_operations | split; [|split; [|reflexivity]]].
  - intros a b. split; reflexivity.
  - intros a b key Hn.
    assert (Ha : has_key (Calculator.operations T) key = false).
    { destruct (has_key (Calculator.operations T) key) eqn:Hk; [|reflexivity].
      exfalso. apply Hn. exact (proj1 (has_key_operations T key) Hk). }
    rewrite (calculate_absent T L a b key Ha).
    split; [|split].
    + destruct (str_cases L key) as [[text ->] | ->]; eexists; reflexivity.
    + intros text ->. reflexivity.
    + intros e He. rewrite (str_raises L key e He) in He. rewrite He.
      split; [|reflexivity].
      destruct key as [ | c | z | x | s]; try discriminate He. eauto.
Qed.

Lemma operators_are_six_keys_witness :
  Calculator.calculate ascii_text 4300 (Atom (AInt 2)) (Atom (AStr " +")) (Atom (AInt 3)) =
  Raise (ValueError "Invalid operator:  +").
Proof.
  refine (proj1 (proj2 (proj1 (proj2 (proj2 (operators_are_six_keys ascii_text 4300)))
                         (Atom (AInt 2)) (Atom (AInt 3)) (AStr " +") _))
            " +" eq_refl).
  intros (s & Hs & Hin). inversion Hs; subst. simpl in Hin.
  repeat destruct Hin as [Hin | Hin]; try discriminate Hin. exact Hin.
Defined.

(** X11: a body that is no JSON object is never calculated.  An array that is
    not empty is answered with the first of [num1], [operator], [num2] that is
    not one of its elements as the missing field, and with status 500 when all
    three are elements; a text that is not empty likewise, with the names
    sought as substrings; a number that is not zero and [true] with status
    500. *)
Theorem non_object_bodies (T : string -> string) (L : Z) :
  (forall l, l <> [] ->
     api_calculate T L (Ok (VList l)) =
     match find (fun f => negb (existsb (fun v => eq_str v f) l)) required_fields with
     | Some f => failure ("Missing required field: " ++ f) 400
     | None => failure "An unexpected error occurred" 500
     end) /\
  (forall t, t <> EmptyString ->
     api_calculate T L (Ok (Atom (AStr t))) =
     match find (fun f => negb (is_substring f t)) required_fields with
     | Some f => failure ("Missing required field: " ++ f) 400
     | None => failure "An unexpected error occurred" 500
     end) /\
  (forall a, truthy (Atom a) = true -> (forall t, a <> AStr t) ->
     api_calculate T L (Ok (Atom a)) = failure "An unexpected error occurred" 500).
Proof.
  split; [|split].
  - intros l Hl.
    assert (Ht : truthy (VList l) = true) by (destruct l; [contradiction | reflexivity]).
    unfold api_calculate, api_calculate_try. cbn [bind]. rewrite Ht. cbn [negb].
    unfold required_fields, first_missing, contains, find. cbn [bind].
    destruct (existsb (fun v => eq_str v "num1") l); cbn [negb bind]; [|reflexivity].
    destruct (existsb (fun v => eq_str v "operator") l); cbn [negb bind]; [|reflexivity].
    destruct (existsb (fun v => eq_str v "num2") l); cbn [negb bind]; reflexivity.
  - intros t Ht0.
    assert (Ht : truthy (Atom (AStr t)) = true).
    { simpl. destruct (String.eqb_spec t EmptyString); [contradiction | reflexivity]. }
    unfold api_calculate, api_calculate_try. cbn [bind]. rewrite Ht. cbn [negb].
    unfold required_fields, first_missing, contains, find. cbn [bind].
    destruct (is_substring "num1" t); cbn [negb bind]; [|reflexivity].
    destruct (is_substring "operator" t); cbn [negb bind]; [|reflexivity].
    destruct (is_substring "num2" t); cbn [negb bind]; reflexivity.
  - intros a Ht Ha.
    unfold api_calculate, api_calculate_try. cbn [bind]. rewrite Ht. cbn [negb].
    destruct a as [ | b | z | x | t]; try reflexivity.
    exfalso. exact (Ha t eq_refl).
Qed.

Lemma non_object_bodies_witness :
  api_calculate ascii_text 4300
    (Ok (VList [Atom (AStr "num1"); Atom (AStr "operator"); Atom (AStr "num2")])) =
    failure "An unexpected error occurred" 500 /\
  api_calculate ascii_text 4300 (Ok (VList [Atom (AStr "num1"); Atom (AInt 2)])) =
    failure "Missing required field: operator" 400 /\
  api_calculate ascii_text 4300 (Ok (Atom (AStr "my num1 and num2"))) =
    failure "Missing required field: operator" 400 /\
  api_calculate ascii_text 4300 (Ok (Atom (AInt 5))) =
    failure "An unexpected error occurred" 500.
Proof.
  destruct (non_object_bodies ascii_text 4300) as (Hl & Ht & Ha).
  split; [|split; [|split]].
  - apply (Hl [Atom (AStr "num1"); Atom (AStr "operator"); Atom (AStr "num2")]).
    discriminate.
  - apply (Hl [Atom (AStr "num1"); Atom (AInt 2)]). discriminate.
  - apply (Ht "my num1 and num2"). discriminate.
  - apply (Ha (AInt 5)); [reflexivity | discriminate].
Defined.

Lemma known_error_not_handler (L : Z) (msg : string) :
  known_error msg \/ msg = "An unexpected error occurred" \/
  msg = exceeds_limit_to_str L ->
  msg <> "Endpoint not found" /\ msg <> "Internal server error".
Proof.
  unfold known_error, exceeds_limit_to_str.
  intros [[-> | [(f & _ & ->) | [-> | [(text & ->) | [-> | ->]]]]] | [-> | ->]];
    split; discriminate.
Qed.

(** The text of an error that answers a body [request.get_json()] returned
    is none of the handlers'. *)
Lemma returned_body_not_handler (T : string -> string) (L : Z) (data : value) :
  body (api_calculate T L (Ok data)) <> body not_found /\
  body (api_calculate T L (Ok data)) <> body internal_error.
Proof.
  destruct (api_calculate_by_status T L (Ok data)) as [[a E] | [[msg E] | E]].
  - rewrite E. split; discriminate.
  - assert (Hm : msg <> "Endpoint not found" /\ msg <> "Internal server error").
    { apply (known_error_not_handler L).
      destruct (error_catalogue_aux T L data msg 400 E)
        as [[_ H] | [[_ H] | (_ & H & _)]]; auto. }
    rewrite E. split; intros H; inversion H; tauto.
  - rewrite E. split; discriminate.
Qed.

(** X12: [api_calculate] never answers as an error handler does.  Its status
    is never 404; its JSON body is the body of [not_found] or of
    [internal_error] only when [request.get_json()] itself raised a
    [ValueError] with the text of the handler, so never for a body that
    [request.get_json()] returned; and its answer with status 500 carries
    another text than [internal_error].  The two handlers themselves answer
    with [success] false, the text of an error and no result. *)
Theorem handlers_are_distinct (T : string -> string) (L : Z) (get_json : result value) :
  status (api_calculate T L get_json) <> 404 /\
  (body (api_calculate T L get_json) = body not_found <->
   get_json = Raise (ValueError "Endpoint not found")) /\
  (body (api_calculate T L get_json) = body internal_error <->
   get_json = Raise (ValueError "Internal server error")) /\
  (status (api_calculate T L get_json) = 500 ->
   body (api_calculate T L get_json) <> body internal_error) /\
  api_calculate T L get_json <> not_found /\
  api_calculate T L get_json <> internal_error /\
  CalculationResult not_found /\ CalculationResult internal_error /\
  field "success" not_found = Some (Atom (ABool false)) /\
  field "success" internal_error = Some (Atom (ABool false)).
Proof.
  assert (Hs : status (api_calculate T L get_json) <> 404).
  { destruct (api_calculate_by_status T L get_json) as [[a ->] | [[msg ->] | ->]];
      discriminate. }
  assert (H500 : status (api_calculate T L get_json) = 500 ->
                 body (api_calculate T L get_json) <> body internal_error).
  { destruct (api_calculate_by_status T L get_json) as [[a ->] | [[msg ->] | ->]];
      discriminate. }
  assert (Hraise : forall text,
            body (api_calculate T L get_json) =
              jsonify [("success", Atom (ABool false)); ("error", Atom (AStr text))] ->
            (exists data, get_json = Ok data) \/
            text = "An unexpected error occurred" \/
            get_json = Raise (ValueError text)).
  { intros text. destruct get_json as [data | e]; [eauto|].
    destruct e; cbn; intros H; inversion H; auto. }
  split; [exact Hs|].
  split; [|split; [|split; [exact H500|]]].
  - split; [|intros ->; reflexivity].
    intros H. destruct (Hraise _ H) as [[data ->] | [E | E]];
      [|discriminate E | exact E].
    destruct (returned_body_not_handler T L data) as [Hn _]. contradiction.
  - split; [|intros ->; reflexivity].
    intros H. destruct (Hraise _ H) as [[data ->] | [E | E]];
      [|discriminate E | exact E].
    destruct (returned_body_not_handler T L data) as [_ Hn]. contradiction.
  - split; [|split; [|split; [|split; [|split]]]]; try reflexivity.
    + intros E. apply Hs. rewrite E. reflexivity.
    + intros E. apply H500; rewrite E; reflexivity.
    + apply answered_shape. right. do 2 eexists. reflexivity.
    + apply answered_shape. right. do 2 eexists. reflexivity.
Qed.

(** ** Facts about [int] and [str] of an int *)

Lemma chars_String (c : ascii) (s : string) : chars (String c s) = c :: chars s.
Proof. reflexivity. Qed.

(** The digits [str] writes are read back by the scan of [int]. *)
Lemma scan_digits_uint (d : Decimal.uint) (prev : ascii) (acc n : Z) :
  is_char prev "_" = false ->
  scan_digits prev (chars (NilEmpty.string_of_uint d)) acc n =
  Some (acc * 10 ^ Z.of_N (DecimalPos.Unsigned.usize d) + Z.of_N (DecimalPos.Unsigned.of_lu (Decimal.rev d)),
        n + Z.of_N (DecimalPos.Unsigned.usize d), []).
Proof.
  revert prev acc n.
  induction d as [ |d IH|d IH|d IH|d IH|d IH|d IH|d IH|d IH|d IH|d IH];
    intros prev acc n Hp.
  1:{ simpl. rewrite Hp. f_equal. f_equal. f_equal; lia. }
  all: cbn [NilEmpty.string_of_uint]; rewrite chars_String; cbn [scan_digits].
  all: change (is_digit _) with true; cbv iota.
  all: match goal with
       | |- context [DecimalPos.Unsigned.of_lu (Decimal.rev (?f ?x))] =>
           change (Decimal.rev (f x)) with (Decimal.revapp x (f Decimal.Nil));
           rewrite (DecimalPos.Unsigned.of_lu_revapp x (f Decimal.Nil))
       end.
  all: rewrite IH by reflexivity.
  all: cbn [DecimalPos.Unsigned.usize DecimalPos.Unsigned.of_lu].
  all: rewrite N2Z.inj_succ, Z.pow_succ_r by lia.
  all: rewrite N2Z.inj_add, N2Z.inj_mul, N2Z.inj_pow.
  all: repeat match goal with
       | |- context [digit_value ?c] =>
           let v := eval vm_compute in (digit_value c) in
           change (digit_value c) with v
       | |- context [Z.of_N ?t] =>
           lazymatch t with
           | context [DecimalPos.Unsigned.usize _] => fail
           | context [DecimalPos.Unsigned.of_lu _] => fail
           | _ => let v := eval vm_compute in (Z.of_N t) in
                  progress change (Z.of_N t) with v
           end
       end.
  all: apply f_equal; apply f_equal2; [apply f_equal2; lia | reflexivity].
Qed.

Lemma digit_facts (c : ascii) :
  is_digit c = true ->
  is_space c = false /\ is_char c "_" = false /\ is_char c "-" = false /\
  is_char c "+" = false /\ (code c <? 128)%N = true.
Proof.
  unfold is_digit, is_space, is_char. intros H.
  apply andb_true_iff in H. destruct H as [H1 H2].
  apply N.leb_le in H1. apply N.leb_le in H2.
  assert (Hc : forall d, (code d < 48 \/ 57 < code d)%N -> Ascii.eqb c d = false).
  { intros d Hd. apply Ascii.eqb_neq. intros ->. unfold code in *. lia. }
  repeat split.
  - apply orb_false_iff. split.
    + apply andb_false_iff. right. apply N.leb_gt. lia.
    + apply N.eqb_neq. lia.
  - apply Hc. vm_compute. right. reflexivity.
  - apply Hc. vm_compute. left. reflexivity.
  - apply Hc. vm_compute. left. reflexivity.
  - apply N.ltb_lt. lia.
Qed.

Lemma uint_digits (d : Decimal.uint) :
  forallb is_digit (chars (NilEmpty.string_of_uint d)) = true.
Proof. induction d; simpl; auto. Qed.

Lemma uint_length (d : Decimal.uint) :
  Z.of_N (DecimalPos.Unsigned.usize d) =
  Z.of_nat (String.length (NilEmpty.string_of_uint d)).
Proof.
  induction d; cbn [DecimalPos.Unsigned.usize NilEmpty.string_of_uint String.length];
    try reflexivity; rewrite N2Z.inj_succ, Nat2Z.inj_succ, IHd; reflexivity.
Qed.

Lemma lstrip_keeps (l : list ascii) :
  forallb (fun c => negb (is_space c)) l = true -> lstrip l = l.
Proof.
  destruct l as [|c r]; simpl; [reflexivity|].
  intros H. apply andb_true_iff in H. destruct H as [H _].
  apply negb_true_iff in H. rewrite H. reflexivity.
Qed.

Lemma strip_keeps (l : list ascii) :
  forallb (fun c => negb (is_space c)) l = true -> strip l = l.
Proof.
  intros H. unfold strip. rewrite (lstrip_keeps l H).
  rewrite lstrip_keeps; [apply rev_involutive|].
  apply forallb_forall. intros c Hc. apply in_rev in Hc.
  exact (proj1 (forallb_forall _ _) H c Hc).
Qed.

Lemma forallb_impl {A : Type} (f g : A -> bool) (l : list A) :
  (forall a, f a = true -> g a = true) ->
  forallb f l = true -> forallb g l = true.
Proof.
  intros Hfg H. apply forallb_forall. intros a Ha.
  apply Hfg. exact (proj1 (forallb_forall _ _) H a Ha).
Qed.

Lemma is_ascii_chars (s : string) :
  is_ascii s = forallb (fun c => (code c <? 128)%N) (chars s).
Proof. reflexivity. Qed.

Section RoundTrip.

Variable T : string -> string.
Variable max_str_digits : Z.
Hypothesis T_keeps_ascii : keeps_ascii T.

(** [int] reads the digits of a numeral of at most 640 digits back. *)
Lemma int_of_str_uint (neg : bool) (d : Decimal.uint) (s : string) :
  d <> Decimal.Nil ->
  s = (if neg then String "-" (NilEmpty.string_of_uint d)
       else NilEmpty.string_of_uint d) ->
  (String.length (NilEmpty.string_of_uint d) <= 640)%nat ->
  int_of_str T max_str_digits s =
  Ok (cond_Zopp neg (Z.of_N (DecimalPos.Unsigned.of_lu (Decimal.rev d)))).
Proof.
  intros Hd Hs Hlen.
  pose proof (uint_digits d) as Hdig.
  assert (Hns : forallb (fun c => negb (is_space c)) (chars s) = true).
  { subst s. destruct neg; [rewrite chars_String; cbn [forallb]; apply andb_true_iff;
      split; [reflexivity|] |];
    (eapply forallb_impl; [|exact Hdig]); intros c Hc;
    apply negb_true_iff; apply (digit_facts c Hc). }
  assert (Ha : is_ascii s = true).
  { rewrite is_ascii_chars. subst s.
    destruct neg; [rewrite chars_String; cbn [forallb]; apply andb_true_iff;
      split; [reflexivity|] |];
    (eapply forallb_impl; [|exact Hdig]); intros c Hc; apply (digit_facts c Hc). }
  unfold int_of_str. rewrite (T_keeps_ascii s Ha), (strip_keeps _ Hns).
  assert (Hsign : sign (chars s) = (neg, chars (NilEmpty.string_of_uint d))).
  { subst s. destruct neg; [reflexivity|].
    destruct (chars (NilEmpty.string_of_uint d)) as [|c r] eqn:E; [reflexivity|].
    cbn [forallb] in Hdig. apply andb_true_iff in Hdig. destruct Hdig as [Hc _].
    destruct (digit_facts c Hc) as (_ & _ & Hm & Hp & _).
    unfold sign. rewrite Hm, Hp. reflexivity. }
  rewrite Hsign.
  destruct (chars (NilEmpty.string_of_uint d)) as [|c r] eqn:E.
  { exfalso. destruct d; try discriminate E. apply Hd. reflexivity. }
  assert (Hc : is_digit c = true).
  { cbn [forallb] in Hdig. apply andb_true_iff in Hdig. apply Hdig. }
  destruct (digit_facts c Hc) as (_ & Hu & _). rewrite Hu.
  rewrite <- E, (scan_digits_uint d Ascii.zero 0 0 eq_refl).
  rewrite uint_length.
  replace (640 <? 0 + Z.of_nat (String.length (NilEmpty.string_of_uint d)))
    with false by (symmetry; apply Z.ltb_ge; lia).
  cbn [andb].
  replace (0 + Z.of_nat (String.length (NilEmpty.string_of_uint d)) =? 0)
    with false.
  - f_equal; try f_equal; try lia.
  - symmetry. apply Z.eqb_neq.
    rewrite <- uint_length. destruct d; try (exfalso; apply Hd; reflexivity);
      cbn [DecimalPos.Unsigned.usize]; lia.
Qed.

(** [int(str(z))] is [z], for a numeral of at most 640 characters. *)
Lemma int_of_str_of_int (z : Z) :
  (String.length (str_of_int z) <= 640)%nat ->
  int_of_str T max_str_digits (str_of_int z) = Ok z.
Proof.
  unfold str_of_int. intros Hlen.
  destruct z as [ | p | p]; cbn [Z.to_int NilZero.string_of_int] in *.
  - rewrite (int_of_str_uint false (Decimal.D0 Decimal.Nil)); try reflexivity; try discriminate;
      try (simpl; lia).
  - assert (Hn := DecimalPos.Unsigned.to_uint_nonnil p).
    assert (E : NilZero.string_of_uint (Pos.to_uint p) =
                NilEmpty.string_of_uint (Pos.to_uint p)).
    { destruct (Pos.to_uint p); try reflexivity. contradiction. }
    rewrite E in *.
    rewrite (int_of_str_uint false (Pos.to_uint p)); auto.
    rewrite <- DecimalPos.Unsigned.of_uint_alt, DecimalPos.Unsigned.of_to. reflexivity.
  - assert (Hn := DecimalPos.Unsigned.to_uint_nonnil p).
    assert (E : NilZero.string_of_uint (Pos.to_uint p) =
                NilEmpty.string_of_uint (Pos.to_uint p)).
    { destruct (Pos.to_uint p); try reflexivity. contradiction. }
    rewrite E in *.
    rewrite (int_of_str_uint true (Pos.to_uint p)); auto.
    + rewrite <- DecimalPos.Unsigned.of_uint_alt, DecimalPos.Unsigned.of_to. reflexivity.
    + cbn [String.length] in Hlen. lia.
Qed.

End RoundTrip.

Lemma scan_digits_none (l : list ascii) (prev : ascii) (acc n : Z) :
  (forall c, In c l -> is_digit c = false) ->
  match scan_digits prev l acc n with
  | Some (_, m, _) => m = n
  | None => True
  end.
Proof.
  revert prev. induction l as [|c r IH]; intros prev H; cbn [scan_digits].
  - destruct (is_char prev "_"); trivial.
  - rewrite (H c (or_introl eq_refl)).
    destruct (is_char c "_").
    + destruct (is_char prev "_"); [trivial|].
      apply IH. intros d Hd. apply H. right. exact Hd.
    + destruct (is_char prev "_"); trivial.
Qed.

Lemma In_lstrip (c : ascii) (l : list ascii) : In c (lstrip l) -> In c l.
Proof.
  induction l as [|d r IH]; simpl; [trivial|].
  destruct (is_space d); [intros H; right; exact (IH H) | trivial].
Qed.

Lemma In_strip (c : ascii) (l : list ascii) : In c (strip l) -> In c l.
Proof.
  unfold strip. intros H. apply in_rev in H. apply In_lstrip in H.
  apply in_rev in H. exact (In_lstrip c l H).
Qed.

Lemma In_sign (c : ascii) (l : list ascii) : In c (snd (sign l)) -> In c l.
Proof.
  destruct l as [|d r]; simpl; [trivial|].
  destruct (is_char d "-"); [simpl; auto|].
  destruct (is_char d "+"); simpl; auto.
Qed.

(** A text without a digit is no numeral. *)
Lemma int_of_str_no_digit (T : string -> string) (max_str_digits : Z) (s : string) :
  (forall c, In c (chars (T s)) -> is_digit c = false) ->
  exists msg, int_of_str T max_str_digits s = Raise (ValueError msg).
Proof.
  intros H. unfold int_of_str.
  destruct (sign (strip (chars (T s)))) as [neg r] eqn:Hs.
  assert (Hr : forall c, In c r -> is_digit c = false).
  { intros c Hc. apply H, In_strip, In_sign. rewrite Hs. exact Hc. }
  destruct r as [|c r]; [eauto|].
  destruct (is_char c "_"); [eauto|].
  pose proof (scan_digits_none (c :: r) Ascii.zero 0 0 Hr) as Hn.
  destruct (scan_digits Ascii.zero (c :: r) 0 0) as [[[v n] rest]|]; [|eauto].
  subst n. cbn. eauto.
Qed.

(** X13: the port the server starts on: 8000 when the environment has no
    [PORT]; the integer [z] when [PORT] is the numeral [str(z)] (of at most
    640 characters, below the limit on numerals); and when [PORT] is set to a
    text without a digit, the empty text for one, a [ValueError] and not the
    default. *)
Theorem port_of_environment (T : string -> string) (max_str_digits : Z)
    (environ : list (string * string)) :
  keeps_ascii T ->
  (lookup "PORT" environ = None -> port T max_str_digits environ = Ok 8000) /\
  (forall z, lookup "PORT" environ = Some (str_of_int z) ->
             (String.length (str_of_int z) <= 640)%nat ->
             port T max_str_digits environ = Ok z) /\
  (forall s, lookup "PORT" environ = Some s ->
             (forall c, In c (chars (T s)) -> is_digit c = false) ->
             exists msg, port T max_str_digits environ = Raise (ValueError msg)).
Proof.
  intros HT. unfold port. split; [|split].
  - intros ->. reflexivity.
  - intros z -> Hlen. apply int_of_str_of_int; assumption.
  - intros s -> Hs. apply int_of_str_no_digit. exact Hs.
Qed.

Lemma port_of_environment_witness :
  port ascii_text 4300 [("HOME", "/root"); ("PORT", "5000")] = Ok 5000 /\
  port ascii_text 4300 [("HOME", "/root")] = Ok 8000 /\
  exists msg, port ascii_text 4300 [("PORT", EmptyString)] = Raise (ValueError msg).
Proof.
  split; [|split].
  - apply (proj1 (proj2 (port_of_environment ascii_text 4300
                           [("HOME", "/root"); ("PORT", "5000")]
                           (fun s _ => eq_refl))) 5000).
    + reflexivity.
    + apply Nat.leb_le. reflexivity.
  - apply (proj1 (port_of_environment ascii_text 4300 [("HOME", "/root")]
                    (fun s _ => eq_refl))).
    reflexivity.
  - apply (proj2 (proj2 (port_of_environment ascii_text 4300 [("PORT", EmptyString)]
                           (fun s _ => eq_refl))) EmptyString).
    + reflexivity.
    + intros c [].
Defined.

(** ** Integers below [2 ^ 53] are computed exactly *)

Lemma digits2_bounds (p : positive) :
  2 ^ (Zpos (digits2_pos p) - 1) <= Zpos p < 2 ^ Zpos (digits2_pos p).
Proof.
  induction p as [p IH | p IH | ]; cbn [digits2_pos].
  - rewrite Pos2Z.inj_succ.
    replace (Z.succ (Zpos (digits2_pos p)) - 1) with (Z.succ (Zpos (digits2_pos p) - 1)) by lia.
    rewrite !Z.pow_succ_r by lia. lia.
  - rewrite Pos2Z.inj_succ.
    replace (Z.succ (Zpos (digits2_pos p)) - 1) with (Z.succ (Zpos (digits2_pos p) - 1)) by lia.
    rewrite !Z.pow_succ_r by lia. lia.
  - simpl. lia.
Qed.

Lemma digits2_unique (p : positive) (d : Z) :
  2 ^ (d - 1) <= Zpos p < 2 ^ d -> Zpos (digits2_pos p) = d.
Proof.
  intros H. pose proof (digits2_bounds p) as B.
  assert (0 < d).
  { destruct (Z.leb_spec d 0); [|assumption].
    assert (2 ^ d <= 2 ^ 0) by (apply Z.pow_le_mono_r; lia). simpl in *. lia. }
  destruct (Z.lt_trichotomy (Zpos (digits2_pos p)) d) as [L | [E | G]]; [|exact E|].
  - assert (2 ^ Zpos (digits2_pos p) <= 2 ^ (d - 1)) by (apply Z.pow_le_mono_r; lia). lia.
  - assert (2 ^ d <= 2 ^ (Zpos (digits2_pos p) - 1)) by (apply Z.pow_le_mono_r; lia). lia.
Qed.

Lemma digits2_shift (p : positive) (k : Z) :
  0 <= k ->
  Zpos (digits2_pos (Z.to_pos (Zpos p * 2 ^ k))) = Zpos (digits2_pos p) + k.
Proof.
  intros Hk. pose proof (digits2_bounds p) as B.
  assert (P : 0 < 2 ^ k) by (apply Z.pow_pos_nonneg; lia).
  apply digits2_unique. rewrite Z2Pos.id by nia.
  replace (Zpos (digits2_pos p) + k - 1) with ((Zpos (digits2_pos p) - 1) + k) by lia.
  rewrite !Z.pow_add_r by lia. nia.
Qed.

Lemma iter_xO (p k : positive) :
  Zpos (Pos.iter xO p k) = Zpos p * 2 ^ Zpos k.
Proof.
  induction k as [|k IH] using Pos.peano_ind.
  - simpl. lia.
  - rewrite Pos.iter_succ, Pos2Z.inj_succ, Z.pow_succ_r by lia.
    rewrite Pos2Z.inj_xO, IH. lia.
Qed.

(** Shifting out zeros is exact. *)
Lemma shr_exact (n : positive) (K : Z) :
  0 <= K ->
  iter_pos shr_1 n {| shr_m := K * 2 ^ Zpos n; shr_r := false; shr_s := false |} =
  {| shr_m := K; shr_r := false; shr_s := false |}.
Proof.
  assert (H1 : forall X, 0 <= X ->
            shr_1 {| shr_m := 2 * X; shr_r := false; shr_s := false |} =
            {| shr_m := X; shr_r := false; shr_s := false |}).
  { intros X HX. destruct X as [|q|q]; reflexivity. }
  revert K. induction n as [n IH | n IH | ]; intros K HK; cbn [iter_pos].
  - change (Zpos n~1) with (2 * Zpos n + 1).
    replace (K * 2 ^ (2 * Zpos n + 1)) with (2 * (K * 2 ^ Zpos n * 2 ^ Zpos n))
      by (replace (2 * Zpos n + 1) with (Zpos n + Zpos n + 1) by lia;
          rewrite !Z.pow_add_r by lia; change (2 ^ 1) with 2; ring).
    assert (0 < 2 ^ Zpos n) by (apply Z.pow_pos_nonneg; lia).
    rewrite H1 by nia. rewrite IH by nia. apply IH. exact HK.
  - change (Zpos n~0) with (2 * Zpos n).
    replace (K * 2 ^ (2 * Zpos n)) with (K * 2 ^ Zpos n * 2 ^ Zpos n)
      by (replace (2 * Zpos n) with (Zpos n + Zpos n) by lia;
          rewrite !Z.pow_add_r by lia; ring).
    assert (0 < 2 ^ Zpos n) by (apply Z.pow_pos_nonneg; lia).
    rewrite IH by nia. apply IH. exact HK.
  - change (2 ^ 1) with 2. rewrite Z.mul_comm. apply H1. exact HK.
Qed.

Lemma fexp_eq (x : Z) : fexp prec emax x = Z.max (x - 53) (-1074).
Proof. reflexivity. Qed.

(** A mantissa that is [N] followed by zeros, [N] of at most 53 bits, is
    rounded to [N] itself, written with 53 bits. *)
Lemma binary_round_aux_exact (s : bool) (m N : positive) (e : Z) :
  let D := Zpos (digits2_pos N) in
  Zpos m = Zpos N * 2 ^ (- e) -> e <= 0 -> D <= 53 -> e <= D - 53 ->
  binary_round_aux prec emax s (Zpos m) e loc_Exact =
  S754_finite s (Z.to_pos (Zpos N * 2 ^ (53 - D))) (D - 53).
Proof.
  intros D Hm He HD Hn.
  assert (HD1 : 1 <= D) by (unfold D; lia).
  assert (Hdm : Zpos (digits2_pos m) = D - e).
  { replace m with (Z.to_pos (Zpos N * 2 ^ (- e))) by (rewrite <- Hm; reflexivity).
    rewrite digits2_shift by lia. unfold D. lia. }
  assert (P : 0 < 2 ^ (53 - D)) by (apply Z.pow_pos_nonneg; lia).
  set (M := Zpos N * 2 ^ (53 - D)).
  assert (HM : 0 < M) by (unfold M; nia).
  assert (HdM : Zpos (digits2_pos (Z.to_pos M)) = 53).
  { unfold M. rewrite digits2_shift by lia. fold D. lia. }
  assert (H1 : shr_fexp prec emax (Zpos m) e loc_Exact =
               ({| shr_m := M; shr_r := false; shr_s := false |}, D - 53)).
  { unfold shr_fexp. cbn [Zdigits2 shr_record_of_loc]. rewrite Hdm, fexp_eq.
    replace (Z.max (D - e + e - 53) (-1074) - e) with (D - 53 - e) by lia.
    unfold shr. destruct (D - 53 - e) as [|p|p] eqn:E.
    - f_equal; [|lia]. f_equal. rewrite Hm. unfold M. f_equal. f_equal. lia.
    - rewrite <- E. f_equal; [|lia].
      replace (Zpos m) with (M * 2 ^ Zpos p).
      + apply shr_exact. lia.
      + rewrite Hm. unfold M. rewrite <- Z.mul_assoc, <- Z.pow_add_r by lia.
        do 2 f_equal. lia.
    - lia. }
  unfold binary_round_aux. rewrite H1.
  cbn [shr_m loc_of_shr_record round_nearest_even].
  assert (H2 : shr_fexp prec emax M (D - 53) loc_Exact =
               ({| shr_m := M; shr_r := false; shr_s := false |}, D - 53)).
  { unfold shr_fexp. cbn [shr_record_of_loc].
    destruct M as [|q|q] eqn:EM; try lia. cbn [Zdigits2].
    change q with (Z.to_pos (Zpos q)). rewrite HdM, fexp_eq.
    replace (Z.max (53 + (D - 53) - 53) (-1074) - (D - 53)) with 0 by lia.
    reflexivity. }
  rewrite H2. cbn [shr_m].
  destruct M as [|q|q] eqn:EM; try lia.
  replace (D - 53 <=? emax - prec) with true
    by (symmetry; apply Z.leb_le; change (emax - prec) with 971; lia).
  reflexivity.
Qed.

Lemma binary_round_exact (s : bool) (m N : positive) (e : Z) :
  let D := Zpos (digits2_pos N) in
  Zpos m = Zpos N * 2 ^ (- e) -> e <= 0 -> D <= 53 ->
  binary_round prec emax s m e =
  S754_finite s (Z.to_pos (Zpos N * 2 ^ (53 - D))) (D - 53).
Proof.
  intros D Hm He HD.
  assert (HD1 : 1 <= D) by (unfold D; lia).
  assert (Hdm : Zpos (digits2_pos m) = D - e).
  { replace m with (Z.to_pos (Zpos N * 2 ^ (- e))) by (rewrite <- Hm; reflexivity).
    rewrite digits2_shift by lia. unfold D. lia. }
  unfold binary_round, shl_align. rewrite Hdm, fexp_eq.
  replace (Z.max (D - e + e - 53) (-1074) - e) with (D - 53 - e) by lia.
  destruct (D - 53 - e) as [|p|p] eqn:E.
  - apply (binary_round_aux_exact s m N e); fold D; try assumption; lia.
  - apply (binary_round_aux_exact s m N e); fold D; try assumption; lia.
  - replace (Z.max (D - e + e - 53) (-1074)) with (D - 53) by lia.
    apply (binary_round_aux_exact s _ N (D - 53)); fold D; try lia.
    rewrite iter_xO, Hm, <- Z.mul_assoc, <- Z.pow_add_r by lia.
    do 2 f_equal. lia.
Qed.

Lemma Zdigits2_bounds (z : Z) :
  z <> 0 -> 2 ^ (Zdigits2 z - 1) <= Z.abs z < 2 ^ Zdigits2 z.
Proof.
  destruct z as [|p|p]; [congruence| |]; intros _; apply digits2_bounds.
Qed.

Lemma Zdigits2_small (z : Z) :
  z <> 0 -> Z.abs z < 2 ^ 53 -> 1 <= Zdigits2 z <= 53.
Proof.
  intros Hz Hs. pose proof (Zdigits2_bounds z Hz) as B.
  split; [destruct z as [|p|p]; [congruence| |]; cbn [Zdigits2]; lia|].
  destruct (Z.leb_spec (Zdigits2 z) 53) as [L | G]; [exact L|].
  assert (2 ^ 53 <= 2 ^ (Zdigits2 z - 1)) by (apply Z.pow_le_mono_r; lia). lia.
Qed.

Lemma cond_Zopp_abs (z k : Z) : cond_Zopp (z <? 0) (Z.abs z * k) = z * k.
Proof.
  destruct (Z.ltb_spec z 0); unfold cond_Zopp; lia.
Qed.

(** The parts of [float_of_small_int z]: a mantissa of 53 bits and an exponent
    that is not positive. *)
Lemma float_of_small_int_parts (z : Z) :
  z <> 0 -> Z.abs z < 2 ^ 53 ->
  exists m e,
    float_of_small_int z = S754_finite (z <? 0) m e /\
    e = Zdigits2 z - 53 /\ e <= 0 /\
    Zpos m = Z.abs z * 2 ^ (- e) /\ Zpos (digits2_pos m) = 53.
Proof.
  intros Hz Hs. pose proof (Zdigits2_small z Hz Hs) as HD.
  exists (Z.to_pos (Z.abs z * 2 ^ (53 - Zdigits2 z))), (Zdigits2 z - 53).
  assert (P : 0 < 2 ^ (53 - Zdigits2 z)) by (apply Z.pow_pos_nonneg; lia).
  split; [destruct z; [congruence| |]; reflexivity|].
  split; [reflexivity|]. split; [lia|].
  split.
  - rewrite Z2Pos.id by lia. do 2 f_equal. lia.
  - destruct z as [|p|p]; [congruence| |]; cbn [Z.abs Zdigits2] in *;
      rewrite digits2_shift by lia; lia.
Qed.

(** Rounding an integer below [2 ^ 53], however many zeros follow it, gives
    the integer. *)
Lemma normalize_small (S e z : Z) :
  S = z * 2 ^ (- e) -> e <= 0 -> Z.abs z < 2 ^ 53 ->
  binary_normalize prec emax S e false = float_of_small_int z.
Proof.
  intros HS He Hs.
  assert (P : 0 < 2 ^ (- e)) by (apply Z.pow_pos_nonneg; lia).
  destruct z as [|N|N].
  - subst S. reflexivity.
  - destruct S as [|m|m]; try lia. cbn [binary_normalize].
    pose proof (Zdigits2_small (Zpos N) ltac:(discriminate) Hs) as HD.
    cbn [Zdigits2] in HD.
    rewrite (binary_round_exact false m N e HS He); [reflexivity | lia].
  - destruct S as [|m|m]; try lia. cbn [binary_normalize].
    pose proof (Zdigits2_small (Zneg N) ltac:(discriminate) Hs) as HD.
    cbn [Zdigits2] in HD.
    rewrite (binary_round_exact true m N e); [reflexivity | lia | lia | lia].
Qed.

Lemma float_of_int_small (z : Z) :
  Z.abs z < 2 ^ 53 -> float_of_int z = Ok (float_of_small_int z).
Proof.
  intros Hs. unfold float_of_int.
  rewrite (normalize_small z 0 z) by (simpl; lia).
  destruct z; reflexivity.
Qed.

Lemma float_of_small_int_value (z : Z) :
  Z.abs z < 2 ^ 53 ->
  int_of_float (float_of_small_int z) = Ok z /\
  float_eq_int (float_of_small_int z) z = true.
Proof.
  intros Hs. destruct (Z.eq_dec z 0) as [-> | Hz]; [split; reflexivity|].
  destruct (float_of_small_int_parts z Hz Hs) as (m & e & -> & He & Hle & Hm & _).
  assert (P : 0 < 2 ^ (- e)) by (apply Z.pow_pos_nonneg; lia).
  unfold int_of_float, float_eq_int. rewrite Hm, cond_Zopp_abs.
  destruct (Z.eq_dec e 0) as [E | E].
  - rewrite E. cbn [Z.leb Z.compare Z.opp]. rewrite Z.shiftl_0_r.
    change (2 ^ 0) with 1. rewrite !Z.mul_1_r, Z.eqb_refl.
    split; [|reflexivity]. f_equal.
    destruct (Z.ltb_spec z 0); unfold cond_Zopp; lia.
  - replace (0 <=? e) with false by (symmetry; apply Z.leb_gt; lia).
    rewrite Z.eqb_refl. split; [|reflexivity]. f_equal.
    rewrite <- (Z.opp_involutive e) at 2. rewrite Z.shiftl_opp_r.
    rewrite Z.shiftr_div_pow2 by lia.
    rewrite Z.div_mul by lia.
    destruct (Z.ltb_spec z 0); unfold cond_Zopp; lia.
Qed.

Lemma shl_align_value (m : positive) (e e' : Z) :
  e' <= e -> Zpos (fst (shl_align m e e')) = Zpos m * 2 ^ (e - e').
Proof.
  intros H. unfold shl_align. destruct (e' - e) as [|d|d] eqn:E; cbn [fst].
  - replace (e - e') with 0 by lia. simpl. lia.
  - lia.
  - rewrite iter_xO. do 2 f_equal. lia.
Qed.

Lemma aligned_value (z : Z) (m : positive) (e e' : Z) :
  Zpos m = Z.abs z * 2 ^ (- e) -> e <= 0 -> e' <= e ->
  cond_Zopp (z <? 0) (Zpos (fst (shl_align m e e'))) = z * 2 ^ (- e').
Proof.
  intros Hm He H. rewrite shl_align_value, Hm by assumption.
  rewrite <- Z.mul_assoc, <- Z.pow_add_r by lia.
  replace (- e + (e - e')) with (- e') by lia. apply cond_Zopp_abs.
Qed.

Lemma fadd_small (a b : Z) :
  Z.abs a < 2 ^ 53 -> Z.abs b < 2 ^ 53 -> Z.abs (a + b) < 2 ^ 53 ->
  fadd (float_of_small_int a) (float_of_small_int b) = float_of_small_int (a + b).
Proof.
  intros Ha Hb Hab.
  destruct (Z.eq_dec a 0) as [-> | Za].
  { destruct b; reflexivity. }
  destruct (Z.eq_dec b 0) as [-> | Zb].
  { rewrite Z.add_0_r. destruct a; reflexivity. }
  destruct (float_of_small_int_parts a Za Ha) as (ma & ea & -> & _ & Hea & Hma & _).
  destruct (float_of_small_int_parts b Zb Hb) as (mb & eb & -> & _ & Heb & Hmb & _).
  unfold fadd, SFadd.
  rewrite (aligned_value a), (aligned_value b) by (assumption || lia).
  apply normalize_small; [ring | lia | assumption].
Qed.

Lemma fsub_small (a b : Z) :
  Z.abs a < 2 ^ 53 -> Z.abs b < 2 ^ 53 -> Z.abs (a - b) < 2 ^ 53 ->
  fsub (float_of_small_int a) (float_of_small_int b) = float_of_small_int (a - b).
Proof.
  intros Ha Hb Hab.
  destruct (Z.eq_dec b 0) as [-> | Zb].
  { rewrite Z.sub_0_r. destruct a; reflexivity. }
  destruct (Z.eq_dec a 0) as [-> | Za].
  { destruct b as [|p|p]; [congruence | reflexivity | reflexivity]. }
  destruct (float_of_small_int_parts a Za Ha) as (ma & ea & -> & _ & Hea & Hma & _).
  destruct (float_of_small_int_parts b Zb Hb) as (mb & eb & -> & _ & Heb & Hmb & _).
  unfold fsub, SFsub.
  rewrite (aligned_value a), (aligned_value b) by (assumption || lia).
  apply normalize_small; [ring | lia | assumption].
Qed.

Lemma Zdigits2_mono (x y : Z) :
  x <> 0 -> y <> 0 -> Z.abs x <= Z.abs y -> Zdigits2 x <= Zdigits2 y.
Proof.
  intros Hx Hy H.
  pose proof (Zdigits2_bounds x Hx) as Bx. pose proof (Zdigits2_bounds y Hy) as By.
  destruct (Z.leb_spec (Zdigits2 x) (Zdigits2 y)) as [L | G]; [exact L|].
  assert (2 ^ Zdigits2 y <= 2 ^ (Zdigits2 x - 1)) by (apply Z.pow_le_mono_r; lia).
  lia.
Qed.

Lemma Zdigits2_mul (x y : Z) :
  x <> 0 -> y <> 0 -> Zdigits2 (x * y) <= Zdigits2 x + Zdigits2 y.
Proof.
  intros Hx Hy.
  pose proof (Zdigits2_bounds x Hx) as Bx. pose proof (Zdigits2_bounds y Hy) as By.
  pose proof (Zdigits2_bounds (x * y) ltac:(nia)) as B.
  rewrite Z.abs_mul in B.
  assert (1 <= Zdigits2 x) by (destruct x; [congruence| |]; cbn [Zdigits2]; lia).
  assert (1 <= Zdigits2 y) by (destruct y; [congruence| |]; cbn [Zdigits2]; lia).
  destruct (Z.leb_spec (Zdigits2 (x * y)) (Zdigits2 x + Zdigits2 y)) as [L | G];
    [exact L|].
  assert (2 ^ (Zdigits2 x + Zdigits2 y) <= 2 ^ (Zdigits2 (x * y) - 1))
    by (apply Z.pow_le_mono_r; lia).
  rewrite Z.pow_add_r in * by lia.
  assert (Z.abs x * Z.abs y < 2 ^ Zdigits2 x * 2 ^ Zdigits2 y) by nia.
  lia.
Qed.

(** The float of a small integer that is not zero, from a rounding that was
    exact. *)
Lemma float_of_small_int_finite (s : bool) (z : Z) (N : positive) :
  Zpos N = Z.abs z -> s = (z <? 0) ->
  S754_finite s (Z.to_pos (Zpos N * 2 ^ (53 - Zpos (digits2_pos N))))
    (Zpos (digits2_pos N) - 53) = float_of_small_int z.
Proof.
  intros HN ->. destruct z as [|p|p]; [discriminate| |];
    cbn [Z.abs] in HN; inversion HN; subst; reflexivity.
Qed.

Lemma sign_mul (a b : Z) :
  a <> 0 -> b <> 0 -> xorb (a <? 0) (b <? 0) = (a * b <? 0).
Proof.
  intros Ha Hb.
  destruct (Z.ltb_spec a 0), (Z.ltb_spec b 0), (Z.ltb_spec (a * b) 0);
    try reflexivity; nia.
Qed.

Lemma fmul_small (a b : Z) :
  Z.abs a < 2 ^ 53 -> Z.abs b < 2 ^ 53 -> Z.abs (a * b) < 2 ^ 53 ->
  a <> 0 -> b <> 0 ->
  fmul (float_of_small_int a) (float_of_small_int b) = float_of_small_int (a * b).
Proof.
  intros Ha Hb Hab Za Zb.
  assert (Zab : a * b <> 0) by nia.
  destruct (float_of_small_int_parts a Za Ha) as (ma & ea & -> & Ea & Hea & Hma & _).
  destruct (float_of_small_int_parts b Zb Hb) as (mb & eb & -> & Eb & Heb & Hmb & _).
  pose proof (Zdigits2_small _ Zab Hab) as HD.
  pose proof (Zdigits2_small _ Zb Hb) as HDb.
  pose proof (Zdigits2_mono a (a * b) Za Zab ltac:(nia)) as Hmono.
  unfold fmul, SFmul.
  destruct (Z.abs (a * b)) as [|N|N] eqn:EN; try lia.
  assert (HdN : Zpos (digits2_pos N) = Zdigits2 (a * b)).
  { destruct (a * b) as [|p|p]; [congruence| |]; cbn [Z.abs] in EN;
      inversion EN; reflexivity. }
  rewrite (binary_round_aux_exact _ _ N (ea + eb)).
  - apply float_of_small_int_finite; [congruence | apply sign_mul; assumption].
  - rewrite Pos2Z.inj_mul, Hma, Hmb, <- EN, Z.abs_mul.
    replace (- (ea + eb)) with (- ea + - eb) by lia.
    rewrite Z.pow_add_r by lia. ring.
  - lia.
  - lia.
  - lia.
Qed.

Lemma fdiv_small (q b : Z) :
  Z.abs (q * b) < 2 ^ 53 -> Z.abs b < 2 ^ 53 -> q <> 0 -> b <> 0 ->
  fdiv (float_of_small_int (q * b)) (float_of_small_int b) = float_of_small_int q.
Proof.
  intros Ha Hb Zq Zb.
  assert (Za : q * b <> 0) by nia.
  assert (Hq : Z.abs q < 2 ^ 53) by nia.
  destruct (float_of_small_int_parts _ Za Ha) as (ma & ea & -> & Ea & Hea & Hma & Hda).
  destruct (float_of_small_int_parts b Zb Hb) as (mb & eb & -> & Eb & Heb & Hmb & Hdb).
  pose proof (Zdigits2_small _ Za Ha) as HDa.
  pose proof (Zdigits2_small _ Zb Hb) as HDb.
  pose proof (Zdigits2_small _ Zq Hq) as HDq.
  pose proof (Zdigits2_mul q b Zq Zb) as Hmul.
  destruct (Z.abs q) as [|N|N] eqn:EN; try lia.
  assert (HdN : Zpos (digits2_pos N) = Zdigits2 q).
  { destruct q as [|p|p]; [congruence| |]; cbn [Z.abs] in EN;
      inversion EN; reflexivity. }
  assert (P : 0 < 2 ^ (53 - ea + eb)) by (apply Z.pow_pos_nonneg; lia).
  assert (Hcore : SFdiv_core_binary prec emax (Zpos ma) ea (Zpos mb) eb =
                  (Zpos N * 2 ^ (53 - ea + eb), ea - eb - 53, loc_Exact)).
  { unfold SFdiv_core_binary. cbn [Zdigits2]. rewrite Hda, Hdb, fexp_eq.
    replace (Z.min (Z.max (53 + ea - (53 + eb) - 53) (-1074)) (ea - eb))
      with (ea - eb - 53) by lia.
    replace (ea - eb - (ea - eb - 53)) with 53 by lia.
    rewrite Z.shiftl_mul_pow2 by lia.
    replace (Zpos ma * 2 ^ 53) with (Zpos N * 2 ^ (53 - ea + eb) * Zpos mb).
    - pose proof (Z.div_eucl_eq (Zpos N * 2 ^ (53 - ea + eb) * Zpos mb) (Zpos mb)
                    ltac:(discriminate)) as Hd.
      pose proof (Z.div_mul (Zpos N * 2 ^ (53 - ea + eb)) (Zpos mb)
                    ltac:(discriminate)) as Hdiv.
      pose proof (Z.mod_mul (Zpos N * 2 ^ (53 - ea + eb)) (Zpos mb)
                    ltac:(discriminate)) as Hmod.
      unfold Z.div, Z.modulo in Hdiv, Hmod.
      destruct (Z.div_eucl (Zpos N * 2 ^ (53 - ea + eb) * Zpos mb) (Zpos mb))
        as [qq rr].
      cbn [fst snd] in *. subst qq rr.
      unfold new_location, new_location_even, new_location_odd.
      destruct (Z.even (Zpos mb)); reflexivity.
    - rewrite Hma, Hmb, Z.abs_mul, EN.
      assert (E1 : 2 ^ (53 - ea + eb) * 2 ^ (- eb) = 2 ^ (- ea) * 2 ^ 53)
        by (rewrite <- !Z.pow_add_r by lia; f_equal; lia).
      rewrite <- !Z.mul_assoc. f_equal.
      rewrite (Z.mul_comm (Z.abs b)), !Z.mul_assoc, E1. ring. }
  unfold fdiv, SFdiv. rewrite Hcore.
  destruct (Zpos N * 2 ^ (53 - ea + eb)) as [|m|m] eqn:Em; try lia.
  rewrite (binary_round_aux_exact _ m N (ea - eb - 53)).
  - apply float_of_small_int_finite; [congruence|].
    rewrite <- (sign_mul q b Zq Zb). destruct (q <? 0), (b <? 0); reflexivity.
  - rewrite <- Em. do 2 f_equal. lia.
  - lia.
  - lia.
  - lia.
Qed.

Lemma float_of_small_int_nonzero (b : Z) :
  b <> 0 -> Z.abs b < 2 ^ 53 -> float_eq_int (float_of_small_int b) 0 = false.
Proof.
  intros Zb Hb.
  destruct (float_of_small_int_parts b Zb Hb) as (m & e & -> & _ & He & _ & _).
  unfold float_eq_int.
  destruct (0 <=? e) eqn:E.
  - apply Z.leb_le in E. replace e with 0 by lia.
    destruct (b <? 0); reflexivity.
  - destruct (b <? 0); reflexivity.
Qed.

Lemma integral_answer (T : string -> string) (L : Z) (num1 operator num2 : value)
    (r : float) (z : Z) :
  Calculator.calculate T L num1 operator num2 = Ok r ->
  int_of_float r = Ok z -> float_eq_int r z = true ->
  api_calculate T L (request num1 operator num2) = success (AInt z).
Proof.
  intros Hc Hi He. unfold request.
  rewrite (normalised T L _ num1 operator num2 r z); [rewrite He; reflexivity | | assumption..].
  repeat split.
Qed.

(** Above 53 bits the sum is rounded: [2 ^ 53 + 1] is answered with
    [2 ^ 53]. *)
Lemma beyond_53_bits :
  api_calculate ascii_text 4300 (request (AInt (2 ^ 53)) (AStr "+") (AInt 1)) =
  success (AInt (2 ^ 53)).
Proof. vm_compute. reflexivity. Qed.

(** X14: integers below [2 ^ 53] in magnitude are computed exactly: when the
    sum, the difference or the product of the operands is below [2 ^ 53] too,
    the request is answered with it as an [int]; and so is a division with no
    remainder, with the quotient. *)
Theorem small_integers_are_exact (T : string -> string) (L : Z) (a b : Z) :
  Z.abs a < 2 ^ 53 -> Z.abs b < 2 ^ 53 ->
  (Z.abs (a + b) < 2 ^ 53 ->
   api_calculate T L (request (AInt a) (AStr "+") (AInt b)) = success (AInt (a + b))) /\
  (Z.abs (a - b) < 2 ^ 53 ->
   api_calculate T L (request (AInt a) (AStr "-") (AInt b)) = success (AInt (a - b))) /\
  (Z.abs (a * b) < 2 ^ 53 ->
   api_calculate T L (request (AInt a) (AStr "*") (AInt b)) = success (AInt (a * b))) /\
  (forall q, b <> 0 -> a = q * b ->
   api_calculate T L (request (AInt a) (AStr "/") (AInt b)) = success (AInt q)).
Proof.
  intros Ha Hb.
  pose proof (float_of_int_small a Ha) as Fa.
  pose proof (float_of_int_small b Hb) as Fb.
  split; [|split; [|split]].
  - intros H. destruct (float_of_small_int_value _ H) as [Hi He].
    apply (integral_answer T L _ _ _ (float_of_small_int (a + b))); try assumption.
    rewrite calculate_plus. unfold Calculator.add. cbn [float_of].
    rewrite Fa, Fb. cbn [bind]. rewrite fadd_small by assumption. reflexivity.
  - intros H. destruct (float_of_small_int_value _ H) as [Hi He].
    apply (integral_answer T L _ _ _ (float_of_small_int (a - b))); try assumption.
    rewrite calculate_minus. unfold Calculator.subtract. cbn [float_of].
    rewrite Fa, Fb. cbn [bind]. rewrite fsub_small by assumption. reflexivity.
  - intros H.
    assert (Hc : Calculator.calculate T L (AInt a) (AStr "*") (AInt b) =
                 Ok (fmul (float_of_small_int a) (float_of_small_int b))).
    { rewrite calculate_star. unfold Calculator.multiply. cbn [float_of].
      rewrite Fa, Fb. reflexivity. }
    destruct (Z.eq_dec a 0) as [-> | Za].
    { apply (integral_answer T L _ _ _ _ _ Hc); destruct b; reflexivity. }
    destruct (Z.eq_dec b 0) as [-> | Zb].
    { rewrite Z.mul_0_r. apply (integral_answer T L _ _ _ _ _ Hc); destruct a; reflexivity. }
    rewrite fmul_small in Hc by assumption.
    destruct (float_of_small_int_value _ H) as [Hi He].
    apply (integral_answer T L _ _ _ _ _ Hc); assumption.
  - intros q Zb ->.
    assert (Hc : Calculator.calculate T L (AInt (q * b)) (AStr "/") (AInt b) =
                 Ok (fdiv (float_of_small_int (q * b)) (float_of_small_int b))).
    { rewrite calculate_slash. unfold Calculator.divide. cbn [float_of].
      rewrite Fa, Fb. cbn [bind].
      rewrite float_of_small_int_nonzero by assumption. reflexivity. }
    destruct (Z.eq_dec q 0) as [-> | Zq].
    { apply (integral_answer T L _ _ _ _ _ Hc); destruct b; try congruence; reflexivity. }
    rewrite fdiv_small in Hc by assumption.
    assert (Hq : Z.abs q < 2 ^ 53) by nia.
    destruct (float_of_small_int_value _ Hq) as [Hi He].
    apply (integral_answer T L _ _ _ _ _ Hc); assumption.
Qed.

Lemma small_integers_are_exact_witness :
  api_calculate ascii_text 4300 (request (AInt 12) (AStr "+") (AInt (-4))) = success (AInt 8) /\
  api_calculate ascii_text 4300 (request (AInt 12) (AStr "-") (AInt (-4))) = success (AInt 16) /\
  api_calculate ascii_text 4300 (request (AInt 12) (AStr "*") (AInt (-4))) = success (AInt (-48)) /\
  api_calculate ascii_text 4300 (request (AInt 12) (AStr "/") (AInt (-4))) = success (AInt (-3)).
Proof.
  destruct (small_integers_are_exact ascii_text 4300 12 (-4) eq_refl eq_refl)
    as (Hadd & Hsub & Hmul & Hdiv).
  split; [|split; [|split]].
  - apply Hadd. reflexivity.
  - apply Hsub. reflexivity.
  - apply Hmul. reflexivity.
  - apply Hdiv; [discriminate | reflexivity].
Defined.
